(** * Doctor assignment and queue numbering: a shallow embedding

    The development follows [src/services/doctorAssignment.js] (symptom
    analysis, workload, wait time, doctor scoring, the assignment
    orchestration) and [src/models/Queue.js] (the queue schema, its
    pre-save hook and its unique index on [queueNumber]).  It goes on to
    the methods and the static [getCurrentQueue] of the queue model, the
    handlers of [src/routes/queue.js] and the pre-save hook of the
    appointment model.

    Conventions of the embedding:
    - a JS string is a [string] (a sequence of 8-bit characters);
      [toLowerCase] maps [A]..[Z] to [a]..[z] and leaves every other
      character alone;
    - an [ObjectId] is the string that prints it;
    - a JS number that holds a count, a queue number or a timestamp in
      milliseconds is a [Z]; the scores, which involve the factors 0.1,
      0.5 and 1.5, are exact rationals ([Q]): rounding of doubles is not
      part of the model;
    - a collection of the database is the list of its documents in
      insertion order; a query that the driver rejects is a [None];
    - thrown errors are values of the type [error]; an [async] function
      that may throw returns a [sum]. *)

From Stdlib Require Import String Ascii List ZArith QArith Bool Lia.
From Stdlib Require Import Sorting.Sorted Sorting.Permutation.
Import ListNotations.

Local Open Scope string_scope.
Local Open Scope Z_scope.

(** ** Strings *)

(** [String.prototype.toLowerCase], on the 8-bit characters of the model. *)
Definition lowerChar (c : ascii) : ascii :=
  let n := N_of_ascii c in
  if ((65 <=? n) && (n <=? 90))%N then ascii_of_N (n + 32) else c.

Fixpoint toLowerCase (s : string) : string :=
  match s with
  | EmptyString => EmptyString
  | String c s' => String (lowerChar c) (toLowerCase s')
  end.

(** [s.includes(needle)]: [needle] occurs in [s] at some position. *)
Fixpoint includes (s needle : string) : bool :=
  prefix needle s ||
  match s with
  | EmptyString => false
  | String _ s' => includes s' needle
  end.

(** [array.includes(x)] on an array of strings. *)
Definition arrIncludes (l : list string) (x : string) : bool :=
  existsb (String.eqb x) l.

(** [set.add(x)] on a JS [Set] of strings, kept in insertion order. *)
Definition setAdd (s : list string) (x : string) : list string :=
  if arrIncludes s x then s else (s ++ [x])%list.

(** ** The knowledge base *)

(** [SYMPTOM_SPECIALIZATION_MAP], in the order of [Object.keys]: none of
    the keys is an integer index, so this is the order of the literal. *)
Definition SYMPTOM_SPECIALIZATION_MAP : list (string * list string) :=
  [
    (* Cardiology *)
    ("chest pain", ["cardiology"; "emergency"]);
    ("heart palpitations", ["cardiology"]);
    ("shortness of breath", ["cardiology"; "pulmonology"]);
    ("irregular heartbeat", ["cardiology"]);
    ("chest tightness", ["cardiology"; "emergency"]);
    ("heart attack", ["emergency"; "cardiology"]);
    ("high blood pressure", ["cardiology"; "internal-medicine"]);
    ("coronary", ["cardiology"]);
    (* Dermatology *)
    ("skin rash", ["dermatology"]);
    ("acne", ["dermatology"]);
    ("eczema", ["dermatology"]);
    ("psoriasis", ["dermatology"]);
    ("moles", ["dermatology"]);
    ("skin cancer", ["dermatology"; "oncology"]);
    ("dermatitis", ["dermatology"]);
    ("hives", ["dermatology"; "allergy"]);
    (* Orthopedics *)
    ("bone pain", ["orthopedics"]);
    ("joint pain", ["orthopedics"; "rheumatology"]);
    ("back pain", ["orthopedics"; "neurology"]);
    ("fracture", ["orthopedics"; "emergency"]);
    ("arthritis", ["rheumatology"; "orthopedics"]);
    ("knee pain", ["orthopedics"]);
    ("shoulder pain", ["orthopedics"]);
    ("hip pain", ["orthopedics"]);
    ("muscle pain", ["orthopedics"; "sports-medicine"]);
    (* Neurology *)
    ("headache", ["neurology"; "internal-medicine"]);
    ("migraine", ["neurology"]);
    ("seizure", ["neurology"; "emergency"]);
    ("dizziness", ["neurology"; "ent"]);
    ("memory loss", ["neurology"; "psychiatry"]);
    ("stroke", ["emergency"; "neurology"]);
    ("tremor", ["neurology"]);
    ("numbness", ["neurology"]);
    (* Gastroenterology *)
    ("stomach pain", ["gastroenterology"; "internal-medicine"]);
    ("nausea", ["gastroenterology"; "internal-medicine"]);
    ("vomiting", ["gastroenterology"; "emergency"]);
    ("diarrhea", ["gastroenterology"; "infectious-disease"]);
    ("constipation", ["gastroenterology"; "internal-medicine"]);
    ("heartburn", ["gastroenterology"]);
    ("acid reflux", ["gastroenterology"]);
    ("bloating", ["gastroenterology"]);
    (* Pulmonology *)
    ("cough", ["pulmonology"; "internal-medicine"]);
    ("asthma", ["pulmonology"; "allergy"]);
    ("bronchitis", ["pulmonology"]);
    ("pneumonia", ["pulmonology"; "emergency"]);
    ("lung pain", ["pulmonology"]);
    ("breathing difficulty", ["pulmonology"; "emergency"]);
    (* ENT (Ear, Nose, Throat) *)
    ("ear pain", ["ent"]);
    ("hearing loss", ["ent"]);
    ("sore throat", ["ent"; "internal-medicine"]);
    ("tonsillitis", ["ent"]);
    ("sinusitis", ["ent"]);
    ("nasal congestion", ["ent"; "allergy"]);
    ("voice hoarseness", ["ent"]);
    (* Ophthalmology *)
    ("eye pain", ["ophthalmology"]);
    ("vision problems", ["ophthalmology"]);
    ("blurred vision", ["ophthalmology"; "neurology"]);
    ("eye infection", ["ophthalmology"]);
    ("glaucoma", ["ophthalmology"]);
    ("cataracts", ["ophthalmology"]);
    (* Psychiatry *)
    ("depression", ["psychiatry"]);
    ("anxiety", ["psychiatry"]);
    ("panic attacks", ["psychiatry"; "cardiology"]);
    ("insomnia", ["psychiatry"; "neurology"]);
    ("mood swings", ["psychiatry"]);
    ("bipolar", ["psychiatry"]);
    (* Emergency *)
    ("severe pain", ["emergency"]);
    ("unconscious", ["emergency"]);
    ("bleeding", ["emergency"; "surgery"]);
    ("poisoning", ["emergency"]);
    ("overdose", ["emergency"]);
    ("trauma", ["emergency"; "surgery"]);
    ("burns", ["emergency"; "plastic-surgery"]);
    (* General/Internal Medicine *)
    ("fever", ["internal-medicine"; "infectious-disease"]);
    ("fatigue", ["internal-medicine"]);
    ("weight loss", ["internal-medicine"; "oncology"]);
    ("weight gain", ["internal-medicine"; "endocrinology"]);
    ("diabetes", ["endocrinology"; "internal-medicine"]);
    ("hypertension", ["cardiology"; "internal-medicine"]);
    ("infection", ["infectious-disease"; "internal-medicine"]);
    (* Gynecology *)
    ("menstrual problems", ["gynecology"]);
    ("pregnancy", ["obstetrics"; "gynecology"]);
    ("pelvic pain", ["gynecology"]);
    ("breast pain", ["gynecology"; "oncology"]);
    (* Urology *)
    ("urinary problems", ["urology"]);
    ("kidney stones", ["urology"; "emergency"]);
    ("prostate", ["urology"]);
    ("bladder", ["urology"])
  ].

(** [SYMPTOM_PRIORITY], in the order of [Object.entries]. *)
Definition SYMPTOM_PRIORITY : list (string * list string) :=
  [ ("emergency", ["heart attack"; "stroke"; "seizure"; "unconscious";
                   "severe bleeding"; "poisoning"; "overdose"; "trauma";
                   "severe pain"; "breathing difficulty"; "chest pain"]);
    ("high", ["fracture"; "pneumonia"; "severe infection"; "high fever";
              "vomiting blood"; "severe burns"]);
    ("medium", ["fever"; "infection"; "persistent pain"; "chronic conditions"]);
    ("low", ["routine checkup"; "minor symptoms"; "follow-up"]) ].

(** ** [analyzeSymptoms] *)

Record SymptomAnalysis := mkAnalysis {
  specializations : list string;   (* Array.from(matchedSpecializations) *)
  priority : string;
  matchedSymptoms : list string;
  confidence : string
}.

(** One round of the [forEach] over the keys of the table: the state is
    the pair of [matchedSymptoms] and [matchedSpecializations]. *)
Definition matchSymptom (symptomsLower : string)
    (acc : list string * list string) (rule : string * list string)
    : list string * list string :=
  if includes symptomsLower (fst rule)
  then ((fst acc ++ [fst rule])%list, fold_left setAdd (snd rule) (snd acc))
  else acc.

Definition matchAll (table : list (string * list string))
    (symptomsLower : string) : list string * list string :=
  fold_left (matchSymptom symptomsLower) table ([], []).

(** The two nested [for] loops that determine the priority.  The inner
    loop assigns the level when one of its keywords occurs; the outer
    loop stops as soon as [priority] is no longer ['low']. *)
Fixpoint scanPriority (tiers : list (string * list string))
    (symptomsLower : string) (priority : string) : string :=
  match tiers with
  | [] => priority
  | (priorityLevel, keywords) :: rest =>
      let priority' :=
        if existsb (includes symptomsLower) keywords
        then priorityLevel else priority in
      if negb (priority' =? "low")%string then priority'
      else scanPriority rest symptomsLower priority'
  end.

Definition analyzeSymptoms (symptoms : string) : SymptomAnalysis :=
  let symptomsLower := toLowerCase symptoms in
  let '(matched, specs) := matchAll SYMPTOM_SPECIALIZATION_MAP symptomsLower in
  let priority := scanPriority SYMPTOM_PRIORITY symptomsLower "low" in
  let specs' :=
    if (Z.of_nat (List.length specs) =? 0) then setAdd specs "internal-medicine"
    else specs in
  {| specializations := specs';
     priority := priority;
     matchedSymptoms := matched;
     confidence :=
       if (0 <? Z.of_nat (List.length matched)) then "high" else "low" |}.

(** ** The database *)

Definition ObjectId := string.

(** Thrown errors.  Each constructor is one origin of an [Error] in the
    code or in the libraries it calls. *)
Inductive error :=
| NoAvailableDoctors
    (* new Error('No available doctors found for the required specializations') *)
| QueryFailed (operation : string)
    (* the promise of a driver call was rejected *)
| ValidationError (paths : list string)
    (* a [required] path of the schema is missing when [save] validates *)
| DuplicateKey (path : string) (value : Z)
    (* an insert violates a [unique] index *)
| AssignmentFailed (cause : error).
    (* new Error(`Doctor assignment failed: ${error.message}`) *)

(** The places where the code awaits the driver. *)
Inductive Op :=
| UserFind                              (* User.find in findBestDoctor *)
| QueueCount (doctorId : ObjectId)      (* Queue.countDocuments in calculateDoctorWorkload *)
| AppointmentCount (doctorId : ObjectId)(* Appointment.countDocuments *)
| QueueFind (doctorId : ObjectId)       (* Queue.find in getAverageWaitTime *)
| QueueFindLast.                        (* findOne in the pre-save hook *)

(** Timestamps are milliseconds; [setHours(0, 0, 0, 0)] takes a date back
    to the start of its day (days of 24 hours, no time zone). *)
Definition msPerDay : Z := 86400000.

Definition startOfDay (t : Z) : Z := t - t mod msPerDay.

Module User.
(** The paths of [models/User.js] that the assignment reads. *)
Record t := mk {
  _id : ObjectId;
  role : string;
  isActive : bool;
  department : option string;       (* not required by the schema *)
  specializations : list string;
  firstName : string;
  lastName : string
}.
End User.

Module Appointment.
Record t := mk {
  doctorId : ObjectId;
  appointmentDate : Z;
  status : string
}.
End Appointment.

Module Queue.
(** The paths of [queueSchema] that the service and the hook use. *)
Record t := mk {
  patientId : ObjectId;             (* required *)
  queueNumber : Z;                  (* required, unique *)
  checkedInBy : option ObjectId;    (* required *)
  checkedInAt : Z;                  (* default: Date.now *)
  status : string;                  (* default: 'waiting' *)
  priority : string;                (* default: 'medium' *)
  assignedDoctor : option ObjectId;
  symptoms : string                 (* required *)
}.

Definition setQueueNumber (n : Z) (q : t) : t :=
  mk (patientId q) n (checkedInBy q) (checkedInAt q) (status q)
     (priority q) (assignedDoctor q) (symptoms q).

(** The validation that [save] runs before the pre-save hooks of the
    schema: every [required] path must be present, a required string
    must not be empty. *)
Definition missingPaths (q : t) : list string :=
  ((match checkedInBy q with None => ["checkedInBy"] | Some _ => [] end) ++
   (if (symptoms q =? "")%string then ["symptoms"] else []))%list.

(** [find({ checkedInAt: { $gte: today } })] *)
Definition sinceToday (today : Z) (coll : list t) : list t :=
  filter (fun q => today <=? checkedInAt q) coll.

(** [.sort({ queueNumber: -1 })] followed by [findOne]: a document with
    the highest queue number, the earliest stored one among equals. *)
Fixpoint highest (l : list t) : option t :=
  match l with
  | [] => None
  | q :: l' =>
      match highest l' with
      | Some q' => if queueNumber q <? queueNumber q' then Some q' else Some q
      | None => Some q
      end
  end.

(** The pre-save hook.  [rejected] tells whether the driver rejects the
    [findOne]; [now] is the clock read by [new Date()]. *)
Definition preSave (rejected : bool) (now : Z) (isNew : bool)
    (this : t) (coll : list t) : error + t :=
  if isNew then
    if rejected then inl (QueryFailed "findOne")
    else
      let today := startOfDay now in
      let lastQueue := highest (sinceToday today coll) in
      inr (setQueueNumber
             (match lastQueue with
              | Some l => queueNumber l + 1
              | None => 1
              end) this)
  else inr this.

(** The unique index on [queueNumber]. *)
Definition taken (n : Z) (coll : list t) : bool :=
  existsb (fun q => queueNumber q =? n) coll.

Definition insert (q : t) (coll : list t) : (error + t) * list t :=
  if taken (queueNumber q) coll
  then (inl (DuplicateKey "queueNumber" (queueNumber q)), coll)
  else (inr q, (coll ++ [q])%list).

(** [doc.save()] of a new document: validation, the pre-save hook, the
    insert.  The result is the outcome and the collection afterwards. *)
Definition save (rejected : bool) (now : Z) (this : t) (coll : list t)
    : (error + t) * list t :=
  match missingPaths this with
  | [] =>
      match preSave rejected now true this coll with
      | inl e => (inl e, coll)
      | inr this' => insert this' coll
      end
  | paths => (inl (ValidationError paths), coll)
  end.

(** The number that the hook gives to a new document. *)
Definition nextQueueNumber (now : Z) (coll : list t) : Z :=
  match highest (sinceToday (startOfDay now) coll) with
  | Some l => queueNumber l + 1
  | None => 1
  end.

(** *** Saving one after another *)

(** A check-in: the clock and the document built at that time, whose
    [checkedInAt] is the default [Date.now]. *)
Definition fresh (now : Z) (patient staff : ObjectId) (symptoms : string) : t :=
  mk patient now (Some staff) now "waiting" "medium" None symptoms.

(** Saves in sequence: each one completes before the next starts. *)
Fixpoint saveAll (reqs : list (Z * t)) (coll : list t) : list t :=
  match reqs with
  | [] => coll
  | (now, q) :: rest => saveAll rest (snd (save false now q coll))
  end.

(** *** Overlapping saves *)

(** A save in flight is before the [await] of the hook, between the
    hook and the insert, or settled. *)
Inductive task :=
| Started (now : Z) (this : t)
| Numbered (this : t)
| Settled (outcome : error + t).

(** The running task resumes up to its next [await]. *)
Definition resume (tk : task) (coll : list t) : task * list t :=
  match tk with
  | Started now this =>
      match missingPaths this with
      | [] =>
          match preSave false now true this coll with
          | inl e => (Settled (inl e), coll)
          | inr this' => (Numbered this', coll)
          end
      | paths => (Settled (inl (ValidationError paths)), coll)
      end
  | Numbered this => let '(r, coll') := insert this coll in (Settled r, coll')
  | Settled r => (Settled r, coll)
  end.

Fixpoint setNth {A} (i : nat) (x : A) (l : list A) : list A :=
  match l, i with
  | [], _ => []
  | _ :: l', O => x :: l'
  | y :: l', S i' => y :: setNth i' x l'
  end.

(** The event loop resumes the tasks in the order of [schedule]. *)
Fixpoint interleave (schedule : list nat) (tasks : list task) (coll : list t)
    : list task * list t :=
  match schedule with
  | [] => (tasks, coll)
  | i :: rest =>
      match nth_error tasks i with
      | Some tk =>
          let '(tk', coll') := resume tk coll in
          interleave rest (setNth i tk' tasks) coll'
      | None => interleave rest tasks coll
      end
  end.

(** The number a task was given by the hook, once it has one. *)
Definition issued (tk : task) : option Z :=
  match tk with
  | Started _ _ => None
  | Numbered this => Some (queueNumber this)
  | Settled (inr q) => Some (queueNumber q)
  | Settled (inl (DuplicateKey _ n)) => Some n
  | Settled (inl _) => None
  end.
End Queue.

(** The environment of the service: which driver calls are rejected, and
    which queue documents the filter key [doctorId] selects.  The queue
    schema declares no path [doctorId] (the doctor of an entry is its
    [assignedDoctor]), so what the key matches is left to the driver. *)
Record Mongo := mkMongo {
  rejects : Op -> bool;
  queueDoctorId : ObjectId -> Queue.t -> bool
}.

Record DB := mkDB {
  users : list User.t;
  queues : list Queue.t;
  appointments : list Appointment.t
}.

(** ** Workload and wait time *)

(** [Queue.countDocuments({ doctorId, status: { $in: ['waiting', 'in-progress'] } })] *)
Definition countActiveQueue (m : Mongo) (db : DB) (doctorId : ObjectId)
    : option Z :=
  if rejects m (QueueCount doctorId) then None
  else Some (Z.of_nat (List.length
         (filter (fun q => queueDoctorId m doctorId q &&
                           arrIncludes ["waiting"; "in-progress"] (Queue.status q))
                 (queues db)))).

(** [Appointment.countDocuments] for the appointments of the doctor from
    [today] up to, and not including, [tomorrow]. *)
Definition countTodayAppointments (m : Mongo) (db : DB) (now : Z)
    (doctorId : ObjectId) : option Z :=
  let today := startOfDay now in
  let tomorrow := today + msPerDay in
  if rejects m (AppointmentCount doctorId) then None
  else Some (Z.of_nat (List.length
         (filter (fun a => (Appointment.doctorId a =? doctorId)%string &&
                           (today <=? Appointment.appointmentDate a) &&
                           (Appointment.appointmentDate a <? tomorrow) &&
                           arrIncludes ["scheduled"; "confirmed"; "in-progress"]
                                       (Appointment.status a))
                 (appointments db)))).

(** [Queue.find({ doctorId, status: 'waiting' })]; the sort by queue
    number that follows does not change how many entries there are. *)
Definition findWaiting (m : Mongo) (db : DB) (doctorId : ObjectId)
    : option (list Queue.t) :=
  if rejects m (QueueFind doctorId) then None
  else Some (filter (fun q => queueDoctorId m doctorId q &&
                              (Queue.status q =? "waiting")%string)
                    (queues db)).

Definition calculateDoctorWorkload (m : Mongo) (db : DB) (now : Z)
    (doctorId : ObjectId) : Z :=
  match countActiveQueue m db doctorId with
  | Some queueCount =>
      match countTodayAppointments m db now doctorId with
      | Some todayAppointments => (queueCount * 2) + todayAppointments
      | None => 999
      end
  | None => 999
  end.

Definition getAverageWaitTime (m : Mongo) (db : DB) (doctorId : ObjectId) : Z :=
  match findWaiting m db doctorId with
  | Some queueEntries =>
      if Z.of_nat (List.length queueEntries) =? 0 then 0
      else Z.of_nat (List.length queueEntries) * 15
  | None => 999
  end.

(** ** [findBestDoctor] *)

Module Scored.
Record t := mk {
  doctor : User.t;
  workload : Z;
  waitTime : Z;
  specializationScore : Z;
  finalScore : Q
}.
End Scored.

Module Best.
(** The result of [findBestDoctor], without the display string [reason]. *)
Record t := mk {
  doctor : User.t;
  workload : Z;
  estimatedWaitTime : Z;
  specializationMatch : bool;
  confidence : string
}.
End Best.

(** The filter of [User.find]. *)
Definition available (specializations : list string) (u : User.t) : bool :=
  (User.role u =? "doctor")%string && User.isActive u &&
  ((match User.department u with
    | Some d => arrIncludes specializations d
    | None => false
    end) ||
   existsb (arrIncludes specializations) (User.specializations u) ||
   (match User.department u with
    | Some d => (d =? "internal-medicine")%string
    | None => false
    end)).

Definition findDoctors (m : Mongo) (db : DB) (specializations : list string)
    : error + list User.t :=
  if rejects m UserFind then inl (QueryFailed "User.find")
  else inr (filter (available specializations) (users db)).

(** [doctor.department && specializations.includes(doctor.department)]:
    a missing or empty department is falsy. *)
Definition departmentMatches (specializations : list string) (u : User.t) : bool :=
  match User.department u with
  | Some d => negb (d =? "")%string && arrIncludes specializations d
  | None => false
  end.

Definition specializationScoreOf (specializations : list string) (u : User.t) : Z :=
  (if departmentMatches specializations u then 10 else 0) +
  Z.of_nat (List.length
    (filter (arrIncludes specializations) (User.specializations u))) * 5.

Definition priorityMultiplier (priority : string) : Q :=
  if (priority =? "emergency")%string then 1 # 10
  else if (priority =? "high")%string then 1 # 2
  else if (priority =? "medium")%string then 1
  else 3 # 2.

Definition scoreDoctor (m : Mongo) (db : DB) (now : Z)
    (specializations : list string) (priority : string) (doctor : User.t)
    : Scored.t :=
  let workload := calculateDoctorWorkload m db now (User._id doctor) in
  let waitTime := getAverageWaitTime m db (User._id doctor) in
  let specializationScore := specializationScoreOf specializations doctor in
  let finalScore :=
    ((inject_Z workload + (inject_Z waitTime / 15)) * priorityMultiplier priority
     - inject_Z specializationScore)%Q in
  Scored.mk doctor workload waitTime specializationScore finalScore.

(** [doctorScores.sort((a, b) => a.finalScore - b.finalScore)]: the sort
    of an array is stable, which fixes its result; insertion from the
    right, in front of the first score that is not smaller, computes it. *)
Fixpoint insertScore (a : Scored.t) (l : list Scored.t) : list Scored.t :=
  match l with
  | [] => [a]
  | b :: l' =>
      if Qle_bool (Scored.finalScore a) (Scored.finalScore b)
      then a :: l
      else b :: insertScore a l'
  end.

Definition sortScores (l : list Scored.t) : list Scored.t :=
  fold_right insertScore [] l.

Definition findBestDoctor (m : Mongo) (db : DB) (now : Z)
    (specializations : list string) (priority : string) : error + Best.t :=
  match findDoctors m db specializations with
  | inl e => inl e
  | inr availableDoctors =>
      if Z.of_nat (List.length availableDoctors) =? 0 then inl NoAvailableDoctors
      else
        let doctorScores :=
          map (scoreDoctor m db now specializations priority) availableDoctors in
        match sortScores doctorScores with
        | bestMatch :: _ =>
            inr (Best.mk (Scored.doctor bestMatch)
                         (Scored.workload bestMatch)
                         (Scored.waitTime bestMatch)
                         (0 <? Scored.specializationScore bestMatch)
                         (if 5 <? Scored.specializationScore bestMatch
                          then "high" else "medium"))
        | [] => inl NoAvailableDoctors   (* not reached: the array is not empty *)
        end
  end.

(** ** [assignDoctorToPatient] *)

Record Assignment := mkAssignment {
  assignedTo : User.t;
  assignedQueueNumber : Z;
  assignedWaitTime : Z;
  assignedPriority : string;
  analysis : SymptomAnalysis
}.

(** The function returns its outcome and the database as it leaves it.
    [now] is the clock; the queue entry is built without [checkedInBy]
    and with the placeholder queue number 1. *)
Definition assignDoctorToPatient (m : Mongo) (db : DB) (now : Z)
    (patientId : ObjectId) (symptoms : string) : (error + Assignment) * DB :=
  let symptomAnalysis := analyzeSymptoms symptoms in
  match findBestDoctor m db now (specializations symptomAnalysis)
                       (priority symptomAnalysis) with
  | inl e => (inl (AssignmentFailed e), db)
  | inr doctorAssignment =>
      let queueEntry :=
        Queue.mk patientId 1 None now "waiting" (priority symptomAnalysis)
                 (Some (User._id (Best.doctor doctorAssignment))) symptoms in
      match Queue.save (rejects m QueueFindLast) now queueEntry (queues db) with
      | (inl e, coll) =>
          (inl (AssignmentFailed e), mkDB (users db) coll (appointments db))
      | (inr saved, coll) =>
          (inr (mkAssignment (Best.doctor doctorAssignment)
                             (Queue.queueNumber saved)
                             (Best.estimatedWaitTime doctorAssignment)
                             (priority symptomAnalysis)
                             symptomAnalysis),
           mkDB (users db) coll (appointments db))
      end
  end.

(** ** Reference definitions and sample data *)

(** The specialty match score in the words of the specification: 10 when
    the primary department is among the requested specialties, and 5 more
    for each secondary specialty that is. *)
Definition specialtyMatchScore (specialties : list string) (u : User.t) : Z :=
  (match User.department u with
   | Some d => if arrIncludes specialties d then 10 else 0
   | None => 0
   end) +
  fold_right (fun tag acc => (if arrIncludes specialties tag then 5 else 0) + acc)
             0 (User.specializations u).

(** The final score of a candidate. *)
Definition scoreOf (m : Mongo) (db : DB) (now : Z)
    (specializations : list string) (priority : string) (u : User.t) : Q :=
  Scored.finalScore (scoreDoctor m db now specializations priority u).

(** A driver that answers every call, and for which the filter key
    [doctorId] selects the entries assigned to the doctor, as the route
    that lists the queue of a doctor does with [assignedDoctor]. *)
Definition byAssignedDoctor : Mongo :=
  mkMongo (fun _ => false)
          (fun doctorId q =>
             match Queue.assignedDoctor q with
             | Some d => (d =? doctorId)%string
             | None => false
             end).


Definition doctorX : User.t :=
  User.mk "64f000000000000000000001" "doctor" true (Some "cardiology") []
          "Xavier" "Doe".

(** One entry of [doctorX] that has been called and is in progress. *)
Definition inProgressEntry : Queue.t :=
  Queue.mk "64f0000000000000000000aa" 1 (Some "64f0000000000000000000bb")
           1000 "in-progress" "medium" (Some (User._id doctorX)) "cough".

(** An internal-medicine doctor with three waiting entries and two
    appointments on the day of the clock reading 1000. *)
Definition doctorG : User.t :=
  User.mk "64f000000000000000000003" "doctor" true (Some "internal-medicine")
          [] "Gita" "Rao".

Definition waitingEntry (n : Z) : Queue.t :=
  Queue.mk "64f0000000000000000000aa" n (Some "64f0000000000000000000bb")
           1000 "waiting" "medium" (Some (User._id doctorG)) "fatigue".

Definition busyClinic : DB :=
  mkDB [doctorG]
       [waitingEntry 1; waitingEntry 2; waitingEntry 3]
       [Appointment.mk (User._id doctorG) 5000 "scheduled";
        Appointment.mk (User._id doctorG) 9000 "confirmed"].







(** The maximum of a list of numbers, when there is one. *)
Fixpoint maximum (l : list Z) : option Z :=
  match l with
  | [] => None
  | x :: l' =>
      Some (match maximum l' with Some m => Z.max x m | None => x end)
  end.

(** Three check-ins of one morning and one of the next day. *)
Definition morning : list (Z * Queue.t) :=
  [ (1000, Queue.fresh 1000 "64f0000000000000000000a1" "64f0000000000000000000bb" "cough");
    (2000, Queue.fresh 2000 "64f0000000000000000000a2" "64f0000000000000000000bb" "fever");
    (3000, Queue.fresh 3000 "64f0000000000000000000a3" "64f0000000000000000000bb" "headache") ].

Definition nextDay : Z := msPerDay + 500.

Definition nextDayEntry : Queue.t :=
  Queue.fresh nextDay "64f0000000000000000000a4" "64f0000000000000000000bb" "nausea".


(** ** Stored queue entries, the methods of the model and the queue routes *)

(** A stable insertion sort: the result of [.sort(...)] up to the order
    of documents that the sort keys do not tell apart. *)
Fixpoint insertBy {A} (le : A -> A -> bool) (a : A) (l : list A) : list A :=
  match l with
  | [] => [a]
  | b :: l' => if le a b then a :: l else b :: insertBy le a l'
  end.

Definition sortBy {A} (le : A -> A -> bool) (l : list A) : list A :=
  fold_right (insertBy le) [] l.

Module Entry.
(** A document of the queue collection: its [_id], the paths of
    [Queue.t], and the paths written by the methods and the routes.  The
    paths [severity], [visitType] and [estimatedWaitTime], which are only
    stored and returned, are left out. *)
Record t := mk {
  _id : ObjectId;
  doc : Queue.t;
  calledAt : option Z;
  startedAt : option Z;
  completedAt : option Z;
  notes : option string
}.

Definition status (e : t) : string := Queue.status (doc e).
Definition priority (e : t) : string := Queue.priority (doc e).
Definition queueNumber (e : t) : Z := Queue.queueNumber (doc e).
Definition checkedInAt (e : t) : Z := Queue.checkedInAt (doc e).
Definition assignedDoctor (e : t) : option ObjectId := Queue.assignedDoctor (doc e).
Definition patientId (e : t) : ObjectId := Queue.patientId (doc e).

Definition setDoc (d : Queue.t) (e : t) : t :=
  mk (_id e) d (calledAt e) (startedAt e) (completedAt e) (notes e).

Definition setStatus (s : string) (e : t) : t :=
  let d := doc e in
  setDoc (Queue.mk (Queue.patientId d) (Queue.queueNumber d) (Queue.checkedInBy d)
                   (Queue.checkedInAt d) s (Queue.priority d)
                   (Queue.assignedDoctor d) (Queue.symptoms d)) e.

Definition setAssignedDoctor (doctorId : ObjectId) (e : t) : t :=
  let d := doc e in
  setDoc (Queue.mk (Queue.patientId d) (Queue.queueNumber d) (Queue.checkedInBy d)
                   (Queue.checkedInAt d) (Queue.status d) (Queue.priority d)
                   (Some doctorId) (Queue.symptoms d)) e.

Definition setCalledAt (now : Z) (e : t) : t :=
  mk (_id e) (doc e) (Some now) (startedAt e) (completedAt e) (notes e).

Definition setStartedAt (now : Z) (e : t) : t :=
  mk (_id e) (doc e) (calledAt e) (Some now) (completedAt e) (notes e).

Definition setCompletedAt (now : Z) (e : t) : t :=
  mk (_id e) (doc e) (calledAt e) (startedAt e) (Some now) (notes e).

Definition setNotes (text : string) (e : t) : t :=
  mk (_id e) (doc e) (calledAt e) (startedAt e) (completedAt e) (Some text).

(** [a || b] on an optional string: a missing or empty string is falsy. *)
Definition orElse (a : option string) (b : string) : string :=
  match a with
  | Some x => if (x =? "")%string then b else x
  | None => b
  end.

Definition truthy (a : option string) : bool :=
  match a with
  | Some x => negb (x =? "")%string
  | None => false
  end.

Definition statuses : list string :=
  ["waiting"; "in-progress"; "completed"; "cancelled"; "no-show"].

Definition priorities : list string := ["low"; "medium"; "high"; "emergency"].

(** The validation of [save]: the required paths, the enumerations of
    [status] and [priority], the maximal length of [notes]. *)
Definition invalidPaths (e : t) : list string :=
  (Queue.missingPaths (doc e) ++
   (if arrIncludes statuses (status e) then [] else ["status"]) ++
   (if arrIncludes priorities (priority e) then [] else ["priority"]) ++
   (match notes e with
    | Some text => if (500 <? String.length text)%nat then ["notes"] else []
    | None => []
    end))%list.

(** The document with the [_id] of [this] is replaced by [this]. *)
Definition replace (this : t) (coll : list t) : list t :=
  map (fun e => if (_id e =? _id this)%string then this else e) coll.

(** [doc.save()] of a document that was loaded from the collection:
    validation, the pre-save hook with [isNew] false, the update.
    [rejected] tells whether the driver rejects the update. *)
Definition save (rejected : bool) (now : Z) (this : t) (coll : list t)
    : (error + t) * list t :=
  match invalidPaths this with
  | [] =>
      match Queue.preSave false now false (doc this) (map doc coll) with
      | inl e => (inl e, coll)
      | inr d =>
          if rejected then (inl (QueryFailed "updateOne"), coll)
          else (inr (setDoc d this), replace (setDoc d this) coll)
      end
  | paths => (inl (ValidationError paths), coll)
  end.

(** *** The methods of the schema *)

Definition markAsCalled (rejected : bool) (now : Z) (this : t) (coll : list t) :=
  save rejected now (setCalledAt now (setStatus "in-progress" this)) coll.

Definition markAsStarted (rejected : bool) (now : Z) (this : t) (coll : list t) :=
  save rejected now (setStartedAt now this) coll.

Definition markAsCompleted (rejected : bool) (now : Z) (this : t) (coll : list t) :=
  save rejected now (setCompletedAt now (setStatus "completed" this)) coll.

Definition cancel (rejected : bool) (now : Z) (reason : option string)
    (this : t) (coll : list t) :=
  save rejected now
       (setNotes (orElse reason "Cancelled by user") (setStatus "cancelled" this))
       coll.

(** *** Queries *)

Definition findById (id : ObjectId) (coll : list t) : option t :=
  find (fun e => (_id e =? id)%string) coll.

(** [.sort({ priority: -1, checkedInAt: 1 })]: strings compare by their
    characters, so the priorities descend as medium, low, high,
    emergency. *)
Definition precedes (a b : t) : bool :=
  match String.compare (priority a) (priority b) with
  | Gt => true
  | Lt => false
  | Eq => checkedInAt a <=? checkedInAt b
  end.

Definition sortQueue (l : list t) : list t := sortBy precedes l.

Definition active (e : t) : bool :=
  arrIncludes ["waiting"; "in-progress"] (status e).

(** The static [getCurrentQueue], without the populated references. *)
Definition getCurrentQueue (coll : list t) : list t :=
  sortQueue (filter active coll).

(** [query.assignedDoctor = doctorId], set only when [doctorId] is truthy. *)
Definition ofDoctor (doctorId : option ObjectId) (e : t) : bool :=
  match doctorId with
  | Some d =>
      if (d =? "")%string then true
      else match assignedDoctor e with
           | Some x => (x =? d)%string
           | None => false
           end
  | None => true
  end.

(** *** The routes *)

(** The answer of a route: the HTTP status, the message and the queue
    entry sent as [data]. *)
Record Response := mkResponse {
  code : Z;
  message : string;
  data : option t
}.

Definition serverError : Response := mkResponse 500 "Server error" None.

(** [POST /call-next].  [rejected i] tells whether the driver rejects the
    [i]-th [await] of the handler: the search for the current patient,
    the save of the current patient, the search for the next patient, the
    save of the next patient. *)

(** The first half of the handler: the current patient, when there is
    one, is marked as completed.  The result tells whether the handler
    goes on, and the collection. *)
Definition completeCurrent (rejected : nat -> bool) (now : Z)
    (doctorId : option ObjectId) (coll : list t) : bool * list t :=
  let currentPatient :=
    hd_error (sortQueue
      (filter (fun e => (status e =? "in-progress")%string && ofDoctor doctorId e)
              coll)) in
  match currentPatient with
  | Some c =>
      match save (rejected 1%nat) now
                 (setCompletedAt now (setStatus "completed" c)) coll with
      | (inl _, coll1) => (false, coll1)
      | (inr _, coll1) => (true, coll1)
      end
  | None => (true, coll)
  end.

Definition callNext (rejected : nat -> bool) (now : Z)
    (doctorId : option ObjectId) (coll : list t) : Response * list t :=
  if rejected 0%nat then (serverError, coll)
  else
    let '(goesOn, coll1) := completeCurrent rejected now doctorId coll in
    if negb goesOn then (serverError, coll1)
    else if rejected 2%nat then (serverError, coll1)
    else
      match hd_error (sortQueue
              (filter (fun e => (status e =? "waiting")%string
                                && ofDoctor doctorId e) coll1)) with
      | None => (mkResponse 404 "No patients waiting in queue" None, coll1)
      | Some nextPatient =>
          match save (rejected 3%nat) now
                     (setCalledAt now (setStatus "in-progress" nextPatient))
                     coll1 with
          | (inl _, coll2) => (serverError, coll2)
          | (inr called, coll2) =>
              (mkResponse 200 "Next patient called" (Some called), coll2)
          end
      end.

(** [PUT /:id/status].  [valid] is the outcome of the validators of the
    route; the [await]s are the search, the save and the two
    [populate]s. *)
Definition updateStatus (rejected : nat -> bool) (now : Z) (valid : bool)
    (id : ObjectId) (status : string) (notes : option string) (coll : list t)
    : Response * list t :=
  if negb valid then (mkResponse 400 "" None, coll)
  else if rejected 0%nat then (serverError, coll)
  else
    match findById id coll with
    | None => (mkResponse 404 "Queue entry not found" None, coll)
    | Some queueEntry =>
        let e1 := setStatus status queueEntry in
        let e2 := if truthy notes then setNotes (orElse notes "") e1 else e1 in
        let e3 :=
          if (status =? "in-progress")%string then setCalledAt now e2
          else if (status =? "completed")%string then setCompletedAt now e2
          else if (status =? "cancelled")%string
               then setNotes (orElse notes "Cancelled by staff") e2
          else e2 in
        match save (rejected 1%nat) now e3 coll with
        | (inl _, coll1) => (serverError, coll1)
        | (inr saved, coll1) =>
            if rejected 2%nat || rejected 3%nat then (serverError, coll1)
            else (mkResponse 200 ("Queue entry " ++ status) (Some saved), coll1)
        end
    end.

(** [PUT /:id/assign-doctor]. *)
Definition assignDoctor (rejected : nat -> bool) (now : Z) (valid : bool)
    (id : ObjectId) (doctorId : ObjectId) (coll : list t)
    : Response * list t :=
  if negb valid then (mkResponse 400 "" None, coll)
  else if rejected 0%nat then (serverError, coll)
  else
    match findById id coll with
    | None => (mkResponse 404 "Queue entry not found" None, coll)
    | Some queueEntry =>
        match save (rejected 1%nat) now (setAssignedDoctor doctorId queueEntry)
                   coll with
        | (inl _, coll1) => (serverError, coll1)
        | (inr saved, coll1) =>
            if rejected 2%nat || rejected 3%nat then (serverError, coll1)
            else (mkResponse 200 "Doctor assigned successfully" (Some saved), coll1)
        end
    end.

(** [DELETE /:id]: the search, then [findByIdAndDelete]. *)
Definition remove (rejected : nat -> bool) (id : ObjectId) (coll : list t)
    : Response * list t :=
  if rejected 0%nat then (serverError, coll)
  else
    match findById id coll with
    | None => (mkResponse 404 "Queue entry not found" None, coll)
    | Some queueEntry =>
        if negb (arrIncludes ["waiting"; "cancelled"] (status queueEntry))
        then (mkResponse 400
                "Cannot delete queue entry that is in progress or completed" None,
              coll)
        else if rejected 1%nat then (serverError, coll)
        else (mkResponse 200 "Queue entry removed successfully" None,
              filter (fun e => negb (_id e =? id)%string) coll)
    end.
End Entry.

(** ** The check-in route *)

Module Patient.
(** The paths of the patient that the check-in reads and writes. *)
Record t := mk {
  _id : ObjectId;
  currentSymptoms : string;           (* required by the schema *)
  assignedDoctor : option ObjectId
}.
End Patient.

Module CheckIn.
(** The fields of [req.body] that reach the queue paths of the model. *)
Record body := mkBody {
  patientId : ObjectId;
  priority : option string;
  notes : option string
}.

(** [new Queue({...}).save()] on the stored entries: the validation of
    all paths, then the hook and the insert of [Queue.save].  [rejected]
    tells whether the driver rejects the [findOne] of the hook. *)
Definition create (rejected : bool) (now : Z) (this : Entry.t)
    (coll : list Entry.t) : (error + Entry.t) * list Entry.t :=
  match Entry.invalidPaths this with
  | [] =>
      match Queue.save rejected now (Entry.doc this) (map Entry.doc coll) with
      | (inl e, _) => (inl e, coll)
      | (inr d, _) => (inr (Entry.setDoc d this), (coll ++ [Entry.setDoc d this])%list)
      end
  | paths => (inl (ValidationError paths), coll)
  end.

Section Handler.
(** [Queue.findOneAndUpdate({ patientId, queueNumber }, { severity,
    visitType, notes, checkedInBy })]: what it returns and the collection
    it leaves are the driver's. *)
Variable findOneAndUpdate :
  ObjectId -> Z -> option string -> ObjectId -> list Entry.t ->
  option Entry.t * list Entry.t.

(** [POST /check-in].  [valid] is the outcome of the validators,
    [patient] the answer of [Patient.findById], [newId] the [_id] of the
    queue document that is built, [staff] the user of the request.  The
    [await]s counted by [rejected] are: the patient, the entry of the
    patient in the queue, the save of the patient, [findOneAndUpdate],
    the [findOne] of the hook, and the three [populate]s. *)
Definition checkIn (m : Mongo) (rejected : nat -> bool) (now : Z) (valid : bool)
    (staff newId : ObjectId) (b : body) (patient : option Patient.t)
    (users : list User.t) (appointments : list Appointment.t)
    (coll : list Entry.t) : Entry.Response * list Entry.t :=
  let failed := Entry.mkResponse 500 "Server error during check-in" None in
  if negb valid then (Entry.mkResponse 400 "" None, coll)
  else if rejected 0%nat then (failed, coll)
  else
    match patient with
    | None => (Entry.mkResponse 404 "Patient not found" None, coll)
    | Some p =>
        if rejected 1%nat then (failed, coll)
        else
          match find (fun e => (Entry.patientId e =? patientId b)%string
                               && Entry.active e) coll with
          | Some existingQueue =>
              (Entry.mkResponse 400 "Patient is already in queue"
                                (Some existingQueue), coll)
          | None =>
              (* the attempt to assign a doctor; its failure is caught *)
              let attempt :=
                assignDoctorToPatient m
                  (mkDB users (map Entry.doc coll) appointments) now
                  (Patient._id p) (Patient.currentSymptoms p) in
              let assignment :=
                match fst attempt with inr a => Some a | inl _ => None end in
              let coll1 :=
                match fst attempt with
                | inr a =>
                    (coll ++
                     [Entry.mk newId
                        (Queue.mk (Patient._id p) (assignedQueueNumber a) None now
                                  "waiting" (assignedPriority a)
                                  (Some (User._id (assignedTo a)))
                                  (Patient.currentSymptoms p))
                        None None None None])%list
                | inl _ => coll
                end in
              let p1 :=
                match assignment with
                | Some a =>
                    Patient.mk (Patient._id p) (Patient.currentSymptoms p)
                               (Some (User._id (assignedTo a)))
                | None => p
                end in
              let linked :=
                match assignment with
                | Some a => negb (assignedQueueNumber a =? 0)
                | None => false
                end in
              if linked then
                match assignment with
                | Some a =>
                    if rejected 3%nat then (failed, coll1)
                    else
                      match findOneAndUpdate (patientId b) (assignedQueueNumber a)
                                             (notes b) staff coll1 with
                      | (Some queueEntry, coll2) =>
                          if rejected 5%nat || rejected 6%nat || rejected 7%nat
                          then (failed, coll2)
                          else (Entry.mkResponse 201
                                  "Patient checked in successfully"
                                  (Some queueEntry), coll2)
                      | (None, coll2) => (failed, coll2)
                      end
                | None => (failed, coll1)
                end
              else
                let queueEntry :=
                  Entry.mk newId
                    (Queue.mk (patientId b) now (Some staff) now "waiting"
                              (Entry.orElse (priority b) "medium")
                              (Patient.assignedDoctor p1)
                              (Patient.currentSymptoms p))
                    None None None (notes b) in
                match create (rejected 4%nat) now queueEntry coll1 with
                | (inl _, coll2) => (failed, coll2)
                | (inr saved, coll2) =>
                    if rejected 5%nat || rejected 6%nat || rejected 7%nat
                    then (failed, coll2)
                    else (Entry.mkResponse 201 "Patient checked in successfully"
                                           (Some saved), coll2)
                end
          end
    end.
End Handler.
End CheckIn.

(** ** Appointments: the pre-save hook of the model *)

Module Slot.
(** A stored appointment: its [_id], the paths of [Appointment.t] and the
    times of the slot, which are strings of the form HH:MM. *)
Record t := mk {
  _id : ObjectId;
  appointment : Appointment.t;
  startTime : string;
  endTime : string
}.

Definition doctorId (a : t) : ObjectId := Appointment.doctorId (appointment a).
Definition appointmentDate (a : t) : Z := Appointment.appointmentDate (appointment a).
Definition status (a : t) : string := Appointment.status (appointment a).

Definition setStatus (s : string) (a : t) : t :=
  mk (_id a) (Appointment.mk (doctorId a) (appointmentDate a) s)
     (startTime a) (endTime a).

(** What makes a save fail. *)
Inductive failure :=
| TimeSlotConflict      (* new Error('Time slot conflict with existing appointment') *)
| Invalid               (* a path does not pass the validation of the schema *)
| DuplicateId           (* the [_id] is stored already *)
| Rejected.             (* the driver rejects a call *)

(** The filter of the [findOne] of the hook. *)
Definition conflictsWith (this a : t) : bool :=
  (doctorId a =? doctorId this)%string &&
  (appointmentDate a =? appointmentDate this) &&
  arrIncludes ["scheduled"; "confirmed"] (status a) &&
  negb (_id a =? _id this)%string.

(** The pre-save hook.  [modified] lists the paths that were assigned to
    since the document was loaded. *)
Definition preSave (rejected : bool) (isNew : bool) (modified : list string)
    (this : t) (coll : list t) : option failure :=
  if isNew || arrIncludes modified "appointmentDate"
     || arrIncludes modified "startTime" || arrIncludes modified "doctorId"
  then
    if rejected then Some Rejected
    else
      match find (conflictsWith this) coll with
      | Some conflictingAppointment => Some TimeSlotConflict
      | None => None
      end
  else None.

(** [save] of a new appointment.  [valid] is the outcome of the
    validation of the schema. *)
Definition create (valid : bool) (rejected : bool) (this : t) (coll : list t)
    : option failure * list t :=
  if negb valid then (Some Invalid, coll)
  else
    match preSave rejected true [] this coll with
    | Some f => (Some f, coll)
    | None =>
        if existsb (fun a => (_id a =? _id this)%string) coll
        then (Some DuplicateId, coll)
        else (None, (coll ++ [this])%list)
    end.

Fixpoint createAll (news : list t) (coll : list t) : list t :=
  match news with
  | [] => coll
  | this :: rest => createAll rest (snd (create true false this coll))
  end.

(** The method [confirm]: the status is assigned and the document saved;
    the only modified path is [status]. *)
Definition confirm (valid : bool) (rejected : bool) (this : t) (coll : list t)
    : option failure * list t :=
  let this' := setStatus "confirmed" this in
  if negb valid then (Some Invalid, coll)
  else
    match preSave rejected false ["status"] this' coll with
    | Some f => (Some f, coll)
    | None =>
        (None, map (fun a => if (_id a =? _id this')%string then this' else a) coll)
    end.

(** An appointment that holds its slot. *)
Definition live (a : t) : bool :=
  arrIncludes ["scheduled"; "confirmed"] (status a).

(** No doctor has two live appointments with the same appointment date. *)
Definition singleBooking (coll : list t) : Prop :=
  forall a b, In a coll -> In b coll -> live a = true -> live b = true ->
              doctorId a = doctorId b -> appointmentDate a = appointmentDate b ->
              a = b.
End Slot.

(** ** Reference definitions for the further properties *)

(** The first tier of a priority table of which a keyword occurs in the
    text, tiers named low apart. *)
Definition decidingTier (tiers : list (string * list string)) (text : string)
    : option (string * list string) :=
  find (fun tier => existsb (includes text) (snd tier)
                    && negb (fst tier =? "low")%string) tiers.

(** What identifies a stored entry in the numbering of the day: its
    [_id], its queue number and the time of its check-in. *)
Definition stamp (e : Entry.t) : ObjectId * Z * Z :=
  (Entry._id e, Entry.queueNumber e, Entry.checkedInAt e).

(** A waiting room: an emergency checked in first, then a medium and a
    low priority entry, all waiting and none assigned. *)
Definition roomEntry (id : ObjectId) (n : Z) (at_ : Z) (status priority : string)
    : Entry.t :=
  Entry.mk id
    (Queue.mk "64f0000000000000000000a1" n (Some "64f0000000000000000000bb")
              at_ status priority None "cough")
    None None None None.

Definition waitingRoom : list Entry.t :=
  [ roomEntry "q1" 1 1000 "waiting" "emergency";
    roomEntry "q2" 2 2000 "waiting" "medium";
    roomEntry "q3" 3 3000 "waiting" "low" ].

Definition answering : nat -> bool := fun _ => false.

(** A consulting room: one entry in progress and nobody waiting. *)
Definition lastPatient : list Entry.t :=
  [ roomEntry "q1" 1 1000 "in-progress" "medium" ].

(** The stored entries of the morning, with their ids. *)
Definition storedAs (id : ObjectId) (d : Queue.t) : Entry.t :=
  Entry.mk id d None None None None.

Definition morningEntries : list Entry.t :=
  map (fun p => storedAs (fst p) (snd p))
      (combine ["q1"; "q2"; "q3"] (Queue.saveAll morning [])).

Definition lateEntry : Queue.t :=
  Queue.fresh 4000 "64f0000000000000000000a4" "64f0000000000000000000bb" "nausea".

(** A driver whose [findOneAndUpdate] finds nothing, a patient and a
    request to check the patient in. *)
Definition findsNothing (patientId : ObjectId) (queueNumber : Z)
    (notes : option string) (staff : ObjectId) (coll : list Entry.t)
    : option Entry.t * list Entry.t := (None, coll).

Definition walkIn : Patient.t :=
  Patient.mk "64f0000000000000000000a9" "sore throat" None.

Definition walkInRequest : CheckIn.body :=
  CheckIn.mkBody "64f0000000000000000000a9" None None.

(** What the hook of the appointments reads of a document. *)
Definition slotKey (a : Slot.t) : ObjectId * ObjectId * Z * string :=
  (Slot._id a, Slot.doctorId a, Slot.appointmentDate a, Slot.status a).

(** Two appointments of one doctor on one date, the first cancelled, the
    second scheduled in its place at another time of the day. *)
Definition givenUp : Slot.t :=
  Slot.mk "a1" (Appointment.mk "64f000000000000000000003" 86400000 "cancelled")
          "09:00" "09:30".

Definition takenOver : Slot.t :=
  Slot.mk "a2" (Appointment.mk "64f000000000000000000003" 86400000 "scheduled")
          "15:00" "15:30".

(** * Properties *)

(** ** The symptom analysis *)

Lemma setAdd_keeps (s : list string) (x y : string) :
  In y s -> In y (setAdd s x).
Proof.
  unfold setAdd. destruct (arrIncludes s x); intro H; auto.
  apply in_or_app. now left.
Qed.

Lemma setAdd_adds (s : list string) (x : string) : In x (setAdd s x).
Proof.
  unfold setAdd, arrIncludes.
  destruct (existsb (String.eqb x) s) eqn:E.
  - apply existsb_exists in E. destruct E as [y [Hy Exy]].
    apply String.eqb_eq in Exy. now subst.
  - apply in_or_app. right. now left.
Qed.

Lemma addAll_keeps (tags s : list string) (y : string) :
  In y s -> In y (fold_left setAdd tags s).
Proof.
  revert s. induction tags as [|t tags IH]; simpl; intros s H; auto.
  apply IH. now apply setAdd_keeps.
Qed.

Lemma addAll_adds (tags s : list string) (y : string) :
  In y tags -> In y (fold_left setAdd tags s).
Proof.
  revert s. induction tags as [|t tags IH]; simpl; intros s H; [easy|].
  destruct H as [<- | H].
  - apply addAll_keeps, setAdd_adds.
  - now apply IH.
Qed.

Lemma matchSymptom_keeps text acc rule (y : string) :
  In y (snd acc) -> In y (snd (matchSymptom text acc rule)).
Proof.
  unfold matchSymptom. destruct (includes text (fst rule)); simpl; auto.
  apply addAll_keeps.
Qed.

Lemma matchRules_keeps table text acc (y : string) :
  In y (snd acc) -> In y (snd (fold_left (matchSymptom text) table acc)).
Proof.
  revert acc. induction table as [|r table IH]; simpl; intros acc H; auto.
  apply IH. now apply matchSymptom_keeps.
Qed.

(** Every tag of a rule whose phrase occurs ends up in the set. *)
Lemma matchRules_adds table text acc phrase tags (y : string) :
  In (phrase, tags) table -> includes text phrase = true -> In y tags ->
  In y (snd (fold_left (matchSymptom text) table acc)).
Proof.
  revert acc. induction table as [|r table IH]; simpl; intros acc Hr Hi Hy; [easy|].
  destruct Hr as [-> | Hr].
  - apply matchRules_keeps. unfold matchSymptom. simpl. rewrite Hi. simpl.
    now apply addAll_adds.
  - now apply (IH _ Hr).
Qed.

(** Without a matching phrase the loop leaves its state alone. *)
Lemma matchRules_none table text acc :
  existsb (fun rule => includes text (fst rule)) table = false ->
  fold_left (matchSymptom text) table acc = acc.
Proof.
  revert acc. induction table as [|r table IH]; simpl; intros acc H; auto.
  apply orb_false_elim in H. destruct H as [Hr Ht].
  unfold matchSymptom at 2. rewrite Hr. now apply IH.
Qed.

(** The recorded phrases are the phrases of the table that occur in the
    text, in the order of the table. *)
Lemma matchRules_phrases table text acc :
  fst (fold_left (matchSymptom text) table acc) =
  (fst acc ++ map fst (filter (fun rule => includes text (fst rule)) table))%list.
Proof.
  revert acc. induction table as [|r table IH]; simpl; intros acc.
  - now rewrite app_nil_r.
  - rewrite IH. unfold matchSymptom.
    destruct (includes text (fst r)); simpl; [|reflexivity].
    now rewrite <- app_assoc.
Qed.

Lemma analysis_unfold (s : string) :
  analyzeSymptoms s =
  let symptomsLower := toLowerCase s in
  let r := matchAll SYMPTOM_SPECIALIZATION_MAP symptomsLower in
  {| specializations :=
       if Z.of_nat (List.length (snd r)) =? 0
       then setAdd (snd r) "internal-medicine" else snd r;
     priority := scanPriority SYMPTOM_PRIORITY symptomsLower "low";
     matchedSymptoms := fst r;
     confidence := if 0 <? Z.of_nat (List.length (fst r)) then "high" else "low" |}.
Proof.
  unfold analyzeSymptoms. cbv zeta.
  destruct (matchAll SYMPTOM_SPECIALIZATION_MAP (toLowerCase s)); reflexivity.
Qed.

Lemma specializations_from_match (s y : string) :
  In y (snd (matchAll SYMPTOM_SPECIALIZATION_MAP (toLowerCase s))) ->
  In y (specializations (analyzeSymptoms s)).
Proof.
  rewrite analysis_unfold. cbv zeta. cbn [specializations].
  destruct (Z.of_nat _ =? 0); auto. apply setAdd_keeps.
Qed.

(** The first tier decides as soon as one of its keywords occurs. *)
Lemma scanPriority_first level keywords rest text before :
  existsb (includes text) keywords = true ->
  (level =? "low")%string = false ->
  scanPriority ((level, keywords) :: rest) text before = level.
Proof.
  intros Hk Hl. cbn [scanPriority]. rewrite Hk. cbv zeta. now rewrite Hl.
Qed.

(** C7 (chest pain): a text whose lower-cased form contains "chest pain"
    is classified with the specializations cardiology and emergency and
    with the priority emergency; the text "severe chest pain and
    shortness of breath" gets cardiology, emergency and pulmonology, and
    the priority emergency. *)
Theorem chest_pain_is_emergency :
  (forall symptoms : string,
      includes (toLowerCase symptoms) "chest pain" = true ->
      In "cardiology" (specializations (analyzeSymptoms symptoms)) /\
      In "emergency" (specializations (analyzeSymptoms symptoms)) /\
      priority (analyzeSymptoms symptoms) = "emergency") /\
  (let a := analyzeSymptoms "severe chest pain and shortness of breath" in
   incl ["cardiology"; "emergency"; "pulmonology"] (specializations a) /\
   priority a = "emergency").
Proof.
  split.
  - intros s H.
    assert (Hrule : In ("chest pain", ["cardiology"; "emergency"])
                       SYMPTOM_SPECIALIZATION_MAP) by (now left).
    repeat split.
    + apply specializations_from_match.
      apply (matchRules_adds _ _ _ _ _ _ Hrule H). now left.
    + apply specializations_from_match.
      apply (matchRules_adds _ _ _ _ _ _ Hrule H). right. now left.
    + rewrite analysis_unfold. cbv zeta. cbn [priority].
      unfold SYMPTOM_PRIORITY. apply scanPriority_first; [|reflexivity].
      apply existsb_exists. exists "chest pain". split; [|exact H].
      do 10 right. now left.
  - vm_compute. split; [|reflexivity].
    intros y Hy. simpl in Hy. simpl. tauto.
Qed.

Lemma chest_pain_is_emergency_witness :
  In "cardiology" (specializations (analyzeSymptoms "Crushing CHEST PAIN since noon")) /\
  In "emergency" (specializations (analyzeSymptoms "Crushing CHEST PAIN since noon")) /\
  priority (analyzeSymptoms "Crushing CHEST PAIN since noon") = "emergency".
Proof.
  apply (proj1 chest_pain_is_emergency "Crushing CHEST PAIN since noon").
  reflexivity.
Defined.

(** C8 (no match, confidence): a text in which no phrase of the table
    occurs gets the single specialization internal-medicine and the
    confidence low; the confidence is high exactly when some phrase was
    recorded, the recorded phrases being those of the table that occur in
    the text; the empty text is analysed like any other. *)
Theorem no_match_falls_back :
  (forall symptoms : string,
      existsb (fun rule => includes (toLowerCase symptoms) (fst rule))
              SYMPTOM_SPECIALIZATION_MAP = false ->
      specializations (analyzeSymptoms symptoms) = ["internal-medicine"] /\
      confidence (analyzeSymptoms symptoms) = "low") /\
  (forall symptoms : string,
      matchedSymptoms (analyzeSymptoms symptoms) =
        map fst (filter (fun rule => includes (toLowerCase symptoms) (fst rule))
                        SYMPTOM_SPECIALIZATION_MAP) /\
      (confidence (analyzeSymptoms symptoms) = "high" <->
       matchedSymptoms (analyzeSymptoms symptoms) <> []) /\
      (confidence (analyzeSymptoms symptoms) = "low" <->
       matchedSymptoms (analyzeSymptoms symptoms) = [])) /\
  analyzeSymptoms "" =
    {| specializations := ["internal-medicine"];
       priority := "low";
       matchedSymptoms := [];
       confidence := "low" |}.
Proof.
  split; [|split].
  - intros s H. rewrite analysis_unfold. cbv zeta.
    cbn [specializations confidence]. unfold matchAll.
    rewrite (matchRules_none _ _ _ H). split; reflexivity.
  - intros s. rewrite analysis_unfold. cbv zeta.
    cbn [matchedSymptoms confidence]. unfold matchAll.
    split; [now rewrite matchRules_phrases|].
    destruct (fst _) as [|p l]; cbn; split; split; congruence.
  - vm_compute. reflexivity.
Qed.

Lemma no_match_falls_back_witness :
  specializations (analyzeSymptoms "Itchy elbow") = ["internal-medicine"] /\
  confidence (analyzeSymptoms "Itchy elbow") = "low".
Proof.
  apply (proj1 no_match_falls_back "Itchy elbow"). reflexivity.
Defined.

(** ** Workload and wait time *)

(** C6 (workload, sentinel): when both counts are answered the workload
    is twice the count of active queue entries plus the count of the
    appointments of the day, both counts being non-negative; when either
    count is rejected the workload is 999; and no rejected count makes
    [findBestDoctor] fail once the directory has answered with at least
    one doctor. *)
Theorem workload_or_sentinel (m : Mongo) (db : DB) (now : Z) :
  (forall doctorId queueCount todayAppointments,
      countActiveQueue m db doctorId = Some queueCount ->
      countTodayAppointments m db now doctorId = Some todayAppointments ->
      calculateDoctorWorkload m db now doctorId
        = 2 * queueCount + todayAppointments /\
      0 <= queueCount /\ 0 <= todayAppointments) /\
  (forall doctorId,
      countActiveQueue m db doctorId = None \/
      countTodayAppointments m db now doctorId = None ->
      calculateDoctorWorkload m db now doctorId = 999) /\
  (forall specializations priority doctor others,
      findDoctors m db specializations = inr (doctor :: others) ->
      exists best, findBestDoctor m db now specializations priority = inr best).
Proof.
  split; [|split].
  - intros d q a Hq Ha. unfold calculateDoctorWorkload. rewrite Hq, Ha.
    split; [lia|].
    unfold countActiveQueue in Hq. unfold countTodayAppointments in Ha.
    cbv zeta in Ha.
    destruct (rejects m (QueueCount d)); [discriminate|].
    destruct (rejects m (AppointmentCount d)); [discriminate|].
    injection Hq as <-. injection Ha as <-. lia.
  - intros d [H | H]; unfold calculateDoctorWorkload.
    + now rewrite H.
    + rewrite H. now destruct (countActiveQueue m db d).
  - intros specs prio doctor others H. unfold findBestDoctor. rewrite H.
    cbn [List.length map]. 
    replace (Z.of_nat (S (List.length others)) =? 0) with false
      by (symmetry; apply Z.eqb_neq; lia).
    cbv zeta. unfold sortScores. cbn [fold_right].
    destruct (fold_right insertScore [] _) as [|b l]; cbn [insertScore].
    + eexists. reflexivity.
    + destruct (Qle_bool _ _); eexists; reflexivity.
Qed.

Lemma workload_or_sentinel_witness :
  calculateDoctorWorkload byAssignedDoctor
    (mkDB [doctorX] [inProgressEntry] []) 2000 (User._id doctorX) = 2 * 1 + 0 /\
  0 <= 1 /\ 0 <= 0.
Proof.
  apply (proj1 (workload_or_sentinel byAssignedDoctor
                  (mkDB [doctorX] [inProgressEntry] []) 2000)
               (User._id doctorX) 1 0); reflexivity.
Defined.





(** ** Scoring and selection *)

Lemma arrIncludes_In (l : list string) (x : string) :
  arrIncludes l x = true <-> In x l.
Proof.
  unfold arrIncludes. rewrite existsb_exists. split.
  - intros [y [Hy E]]. apply String.eqb_eq in E. now subst.
  - intro H. exists x. split; [assumption | apply String.eqb_refl].
Qed.

(** The length of the filtered secondary specialties, times 5, is 5 for
    each of them that is requested. *)
Lemma secondary_score (specializations secondary : list string) :
  Z.of_nat (List.length (filter (arrIncludes specializations) secondary)) * 5
  = fold_right (fun tag acc =>
                  (if arrIncludes specializations tag then 5 else 0) + acc)
               0 secondary.
Proof.
  induction secondary as [|t l IH]; [reflexivity|].
  cbn [filter fold_right]. rewrite <- IH.
  destruct (arrIncludes specializations t); cbn [List.length]; lia.
Qed.

(** The head of the sorted scores is the first minimum of the array. *)
Lemma sortScores_head {A} (f : A -> Scored.t) (l : list A) best rest :
  sortScores (map f l) = best :: rest ->
  exists before u after,
    l = (before ++ u :: after)%list /\ best = f u /\
    (forall v, In v before ->
       (Scored.finalScore (f u) < Scored.finalScore (f v))%Q) /\
    (forall v, In v after ->
       (Scored.finalScore (f u) <= Scored.finalScore (f v))%Q).
Proof.
  revert best rest. induction l as [|a l IH]; intros best rest H.
  - discriminate.
  - cbn [map] in H. unfold sortScores in H. cbn [fold_right] in H.
    fold (sortScores (map f l)) in H.
    destruct (sortScores (map f l)) as [|b s] eqn:Es.
    + (* [a] is alone *)
      destruct l as [|a' l'].
      * cbn in H. injection H as <- _.
        exists [], a, []. repeat split; intros v [].
      * exfalso. cbn [map] in Es. unfold sortScores in Es.
        cbn [fold_right] in Es.
        destruct (fold_right insertScore [] (map f l')); cbn in Es;
          [discriminate | destruct (Qle_bool _ _); discriminate].
    + destruct (IH b s eq_refl) as (before & u & after & Hl & Hb & Hlt & Hle).
      cbn [insertScore] in H.
      destruct (Qle_bool (Scored.finalScore (f a)) (Scored.finalScore b)) eqn:Ec.
      * injection H as <- _. apply Qle_bool_iff in Ec. rewrite Hb in Ec.
        exists [], a, l. repeat split; [intros v [] |].
        intros v Hv. rewrite Hl in Hv. apply in_app_or in Hv.
        destruct Hv as [Hv | [<- | Hv]].
        -- apply Qlt_le_weak. eapply Qle_lt_trans; [exact Ec | now apply Hlt].
        -- exact Ec.
        -- eapply Qle_trans; [exact Ec | now apply Hle].
      * injection H as <- _.
        assert (Hgt : (Scored.finalScore (f u) < Scored.finalScore (f a))%Q).
        { apply Qnot_le_lt. intro Hc. rewrite <- Hb in Hc.
          apply Qle_bool_iff in Hc. congruence. }
        exists (a :: before), u, after. rewrite Hl. repeat split; auto.
        intros v [<- | Hv]; [exact Hgt | now apply Hlt].
Qed.

(** What [findBestDoctor] returns comes from the head of the sorted
    scores of the doctors that the directory returned. *)
Lemma findBestDoctor_inr m db now specializations priority best :
  findBestDoctor m db now specializations priority = inr best ->
  exists availableDoctors bestMatch rest,
    findDoctors m db specializations = inr availableDoctors /\
    sortScores (map (scoreDoctor m db now specializations priority)
                    availableDoctors) = bestMatch :: rest /\
    Best.doctor best = Scored.doctor bestMatch /\
    Best.workload best = Scored.workload bestMatch /\
    Best.estimatedWaitTime best = Scored.waitTime bestMatch.
Proof.
  unfold findBestDoctor. intro H.
  destruct (findDoctors m db specializations) as [e | docs]; [discriminate|].
  destruct (Z.of_nat (List.length docs) =? 0); [discriminate|].
  cbv zeta in H.
  destruct (sortScores _) as [|bestMatch rest] eqn:Es; [discriminate|].
  injection H as <-. exists docs, bestMatch, rest. now repeat split.
Qed.

(** The doctor returned has the lowest final score of the candidates, and
    every candidate that the directory lists before that doctor has a
    strictly higher one. *)
Lemma findBestDoctor_first_minimum m db now specializations priority best :
  findBestDoctor m db now specializations priority = inr best ->
  exists before after,
    findDoctors m db specializations
      = inr (before ++ Best.doctor best :: after)%list /\
    (forall v, In v before ->
       (scoreOf m db now specializations priority (Best.doctor best)
        < scoreOf m db now specializations priority v)%Q) /\
    (forall v, In v after ->
       (scoreOf m db now specializations priority (Best.doctor best)
        <= scoreOf m db now specializations priority v)%Q).
Proof.
  intro H. apply findBestDoctor_inr in H.
  destruct H as (docs & bestMatch & rest & Hd & Hs & Hdoc & _ & _).
  apply sortScores_head in Hs.
  destruct Hs as (before & u & after & Hl & Hb & Hlt & Hle).
  assert (Eu : Best.doctor best = u) by (rewrite Hdoc, Hb; reflexivity).
  exists before, after. rewrite Eu, Hd, Hl. unfold scoreOf. auto.
Qed.

(** C3 (scoring): for requested specialties without an empty tag, the
    specialty match score of a candidate is 10 when the primary
    department is requested plus 5 for each requested secondary
    specialty; the multiplier is 0.1, 0.5, 1 and 1.5 for emergency, high,
    medium and low; the final score is (workload + wait / 15) times the
    multiplier minus the specialty match score; and the doctor returned
    has a final score that no candidate undercuts. *)
Theorem doctor_score_formula (m : Mongo) (db : DB) (now : Z)
    (specializations : list string) (priority : string) :
  ~ In "" specializations ->
  (forall doctor : User.t,
      let s := scoreDoctor m db now specializations priority doctor in
      Scored.specializationScore s = specialtyMatchScore specializations doctor /\
      Scored.workload s = calculateDoctorWorkload m db now (User._id doctor) /\
      Scored.waitTime s = getAverageWaitTime m db (User._id doctor) /\
      Scored.finalScore s =
        ((inject_Z (Scored.workload s) + inject_Z (Scored.waitTime s) / 15)
         * priorityMultiplier priority
         - inject_Z (specialtyMatchScore specializations doctor))%Q) /\
  (priorityMultiplier "emergency" = 1 # 10 /\
   priorityMultiplier "high" = 1 # 2 /\
   priorityMultiplier "medium" = 1%Q /\
   priorityMultiplier "low" = 3 # 2) /\
  (forall best candidates,
      findBestDoctor m db now specializations priority = inr best ->
      findDoctors m db specializations = inr candidates ->
      In (Best.doctor best) candidates /\
      forall v, In v candidates ->
        (scoreOf m db now specializations priority (Best.doctor best)
         <= scoreOf m db now specializations priority v)%Q).
Proof.
  intro Hne.
  assert (Hspec : forall doctor,
             specializationScoreOf specializations doctor
             = specialtyMatchScore specializations doctor).
  { intro doctor. unfold specializationScoreOf, specialtyMatchScore.
    rewrite secondary_score. f_equal. unfold departmentMatches.
    destruct (User.department doctor) as [d|]; [|reflexivity].
    destruct (String.eqb_spec d "") as [-> | Hd]; cbn [negb andb]; [|reflexivity].
    destruct (arrIncludes specializations "") eqn:E; [|reflexivity].
    apply arrIncludes_In in E. contradiction. }
  split; [|split].
  - intro doctor. cbv zeta. unfold scoreDoctor. cbv zeta.
    cbn [Scored.specializationScore Scored.workload Scored.waitTime
         Scored.finalScore].
    rewrite Hspec. repeat split.
  - repeat split.
  - intros best candidates Hb Hc.
    destruct (findBestDoctor_first_minimum _ _ _ _ _ _ Hb)
      as (before & after & Hd & Hlt & Hle).
    rewrite Hc in Hd. injection Hd as ->. split.
    + apply in_or_app. right. now left.
    + intros v Hv. apply in_app_or in Hv. destruct Hv as [Hv | [<- | Hv]].
      * apply Qlt_le_weak. now apply Hlt.
      * apply Qle_refl.
      * now apply Hle.
Qed.

Lemma doctor_score_formula_witness :
  Scored.specializationScore
    (scoreDoctor byAssignedDoctor busyClinic 2000 ["internal-medicine"] "medium"
                 doctorG)
  = specialtyMatchScore ["internal-medicine"] doctorG.
Proof.
  refine (proj1 (proj1 (doctor_score_formula byAssignedDoctor busyClinic 2000
                          ["internal-medicine"] "medium" _) doctorG)).
  intros [H | []]. discriminate H.
Defined.

(** The clinic of scenario B: three waiting entries and two appointments
    give the workload 8 and the wait 45; at medium priority the final
    score is 11 without a specialty match and 1 with the department
    matching. *)
Example busy_clinic_scores :
  let s := scoreDoctor byAssignedDoctor busyClinic 2000 ["cardiology"] "medium"
                       doctorG in
  let s' := scoreDoctor byAssignedDoctor busyClinic 2000 ["internal-medicine"]
                        "medium" doctorG in
  Scored.workload s = 8 /\ Scored.waitTime s = 45 /\
  (Scored.finalScore s == 11)%Q /\ (Scored.finalScore s' == 1)%Q.
Proof. cbv zeta. repeat split. Qed.




(** The specializations of an analysis are tags of the table or the
    default; none of them is the empty string, so the analysis meets the
    side condition of the scoring formula. *)
Lemma matchRules_origin table text acc (y : string) :
  In y (snd (fold_left (matchSymptom text) table acc)) ->
  In y (snd acc) \/ exists rule, In rule table /\ In y (snd rule).
Proof.
  revert acc. induction table as [|r table IH]; cbn [fold_left]; intros acc H.
  - now left.
  - destruct (IH _ H) as [Hacc | (rule & Hr & Hy)].
    + unfold matchSymptom in Hacc. destruct (includes text (fst r)).
      * cbn [snd] in Hacc.
        assert (G : forall tags s, In y (fold_left setAdd tags s) ->
                                   In y s \/ In y tags).
        { clear. induction tags as [|t tags IHt]; cbn [fold_left]; intros s H.
          - now left.
          - destruct (IHt _ H) as [Hs | Ht]; [|right; now right].
            unfold setAdd in Hs. destruct (arrIncludes s t); [now left|].
            apply in_app_or in Hs. destruct Hs as [Hs | [<- | []]];
              [now left | right; now left]. }
        destruct (G _ _ Hacc) as [Hs | Ht]; [now left|].
        right. exists r. split; [now left | assumption].
      * now left.
    + right. exists rule. split; [now right | assumption].
Qed.

Lemma table_tags_not_empty rule :
  In rule SYMPTOM_SPECIALIZATION_MAP -> ~ In "" (snd rule).
Proof.
  intros Hr Hy.
  assert (F : forallb (fun rule => negb (arrIncludes (snd rule) ""))
                      SYMPTOM_SPECIALIZATION_MAP = true)
    by (vm_compute; reflexivity).
  rewrite forallb_forall in F. specialize (F rule Hr).
  apply arrIncludes_In in Hy. rewrite Hy in F. discriminate F.
Qed.

Lemma fallback_not_empty (specs : list string) :
  ~ In "" specs ->
  ~ In "" (if Z.of_nat (List.length specs) =? 0
           then setAdd specs "internal-medicine" else specs).
Proof.
  intros Hm H.
  destruct (Z.of_nat (List.length specs) =? 0); [|exact (Hm H)].
  unfold setAdd in H. destruct (arrIncludes specs "internal-medicine");
    [exact (Hm H)|].
  apply in_app_or in H. destruct H as [H | [H | []]];
    [exact (Hm H) | discriminate H].
Qed.

Lemma analysis_tags_not_empty (symptoms : string) :
  ~ In "" (specializations (analyzeSymptoms symptoms)).
Proof.
  rewrite analysis_unfold. cbv zeta. cbn [specializations].
  apply fallback_not_empty. unfold matchAll. intro Hin.
  apply matchRules_origin in Hin.
  destruct Hin as [Hin | (rule & Hr & Hy)]; [exact Hin|].
  exact (table_tags_not_empty rule Hr Hy).
Qed.

(** ** The orchestration *)

(** C9 (empty pool): when the directory answers with no candidate, the
    assignment fails with the no-available-doctor error wrapped as an
    assignment failure, and the database is what it was: no queue entry
    is stored and the next queue number is unchanged. *)
Theorem empty_pool_fails_without_queue_number (m : Mongo) (db : DB) (now : Z)
    (patientId : ObjectId) (symptoms : string) :
  findDoctors m db (specializations (analyzeSymptoms symptoms)) = inr [] ->
  assignDoctorToPatient m db now patientId symptoms
    = (inl (AssignmentFailed NoAvailableDoctors), db) /\
  queues (snd (assignDoctorToPatient m db now patientId symptoms)) = queues db /\
  forall later,
    Queue.nextQueueNumber later
      (queues (snd (assignDoctorToPatient m db now patientId symptoms)))
    = Queue.nextQueueNumber later (queues db).
Proof.
  intro H.
  assert (E : assignDoctorToPatient m db now patientId symptoms
              = (inl (AssignmentFailed NoAvailableDoctors), db)).
  { unfold assignDoctorToPatient. cbv zeta. unfold findBestDoctor.
    rewrite H. reflexivity. }
  rewrite E. repeat split.
Qed.

Lemma empty_pool_fails_without_queue_number_witness :
  assignDoctorToPatient byAssignedDoctor (mkDB [] [inProgressEntry] []) 2000
                        "64f0000000000000000000aa" "chest pain"
  = (inl (AssignmentFailed NoAvailableDoctors), mkDB [] [inProgressEntry] []).
Proof.
  apply (empty_pool_fails_without_queue_number byAssignedDoctor
           (mkDB [] [inProgressEntry] []) 2000
           "64f0000000000000000000aa" "chest pain").
  reflexivity.
Defined.

(** ** Queue numbers *)





Lemma highest_maximum (l : list Queue.t) :
  option_map Queue.queueNumber (Queue.highest l)
  = maximum (map Queue.queueNumber l).
Proof.
  induction l as [|q l IH]; [reflexivity|].
  cbn [Queue.highest map maximum]. rewrite <- IH.
  destruct (Queue.highest l) as [q'|]; cbn [option_map]; [|reflexivity].
  destruct (Z.ltb_spec (Queue.queueNumber q) (Queue.queueNumber q'));
    cbn [option_map]; f_equal; lia.
Qed.


Lemma nextQueueNumber_maximum (now : Z) (coll : list Queue.t) :
  Queue.nextQueueNumber now coll
  = match maximum (map Queue.queueNumber
                       (Queue.sinceToday (startOfDay now) coll)) with
    | Some m => m + 1
    | None => 1
    end.
Proof.
  unfold Queue.nextQueueNumber. rewrite <- highest_maximum.
  now destruct (Queue.highest _).
Qed.


(** The outcome of a save that passes validation. *)
Lemma save_outcome (now : Z) (doc : Queue.t) (coll : list Queue.t) :
  let q := Queue.setQueueNumber (Queue.nextQueueNumber now coll) doc in
  Queue.save false now doc coll =
    match Queue.missingPaths doc with
    | [] =>
        if Queue.taken (Queue.nextQueueNumber now coll) coll
        then (inl (DuplicateKey "queueNumber" (Queue.nextQueueNumber now coll)),
              coll)
        else (inr q, (coll ++ [q])%list)
    | paths => (inl (ValidationError paths), coll)
    end.
Proof.
  cbv zeta. unfold Queue.save, Queue.preSave, Queue.insert, Queue.nextQueueNumber.
  destruct (Queue.missingPaths doc); reflexivity.
Qed.

Lemma save_cases (now : Z) (doc : Queue.t) (coll : list Queue.t) :
  snd (Queue.save false now doc coll) = coll \/
  snd (Queue.save false now doc coll)
  = (coll ++ [Queue.setQueueNumber (Queue.nextQueueNumber now coll) doc])%list.
Proof.
  rewrite save_outcome. cbv zeta.
  destruct (Queue.missingPaths doc); [|now left].
  destruct (Queue.taken _ _); [now left | now right].
Qed.










(** The three check-ins of the morning are stored as 1, 2 and 3, and the
    hook would give the next one 4. *)
Example morning_numbers :
  map Queue.queueNumber (Queue.saveAll morning []) = [1; 2; 3] /\
  Queue.nextQueueNumber 4000 (Queue.saveAll morning []) = 4.
Proof. split; reflexivity. Qed.

(** Once an entry has been stored, the number 1 stays taken. *)
Lemma saveAll_keeps_one (reqs : list (Z * Queue.t)) (coll : list Queue.t) :
  coll = [] \/ Queue.taken 1 coll = true ->
  Queue.saveAll reqs coll = [] \/ Queue.taken 1 (Queue.saveAll reqs coll) = true.
Proof.
  revert coll. induction reqs as [|[t doc] reqs IH]; intros coll H.
  - exact H.
  - cbn [Queue.saveAll]. apply IH.
    destruct (save_cases t doc coll) as [-> | ->]; [exact H|]. right.
    unfold Queue.taken. rewrite existsb_app. destruct H as [-> | H].
    + reflexivity.
    + unfold Queue.taken in H. now rewrite H.
Qed.

Lemma nextQueueNumber_new_day (now : Z) (coll : list Queue.t) :
  Forall (fun q => Queue.checkedInAt q < startOfDay now) coll ->
  Queue.nextQueueNumber now coll = 1.
Proof.
  intro H. unfold Queue.nextQueueNumber.
  replace (Queue.sinceToday (startOfDay now) coll) with (@nil Queue.t);
    [reflexivity|].
  unfold Queue.sinceToday. induction H as [|q coll Hq _ IH]; [reflexivity|].
  cbn [filter]. destruct (Z.leb_spec (startOfDay now) (Queue.checkedInAt q));
    [lia | exact IH].
Qed.

(** C10 (unique index against the daily restart): after entries have
    been saved one after another into an empty collection, a valid new
    entry saved on a day on which nothing is stored yet, while entries of
    earlier days are, is given the number 1 by the hook and rejected by
    the unique index; the collection stays as it was, so the same holds
    for every further save of that day. *)
Theorem new_day_save_is_rejected (reqs : list (Z * Queue.t)) (now : Z)
    (doc : Queue.t) :
  let coll := Queue.saveAll reqs [] in
  coll <> [] ->
  Forall (fun q => Queue.checkedInAt q < startOfDay now) coll ->
  Queue.missingPaths doc = [] ->
  Queue.nextQueueNumber now coll = 1 /\
  Queue.save false now doc coll = (inl (DuplicateKey "queueNumber" 1), coll).
Proof.
  intros coll Hne Hold Hvalid.
  assert (Hnext : Queue.nextQueueNumber now coll = 1)
    by now apply nextQueueNumber_new_day.
  split; [exact Hnext|].
  rewrite save_outcome. cbv zeta. rewrite Hvalid, Hnext.
  destruct (saveAll_keeps_one reqs [] (or_introl eq_refl)) as [E | E].
  - contradiction.
  - fold coll in E. now rewrite E.
Qed.

Lemma new_day_save_is_rejected_witness :
  Queue.nextQueueNumber nextDay (Queue.saveAll morning []) = 1 /\
  Queue.save false nextDay nextDayEntry (Queue.saveAll morning [])
  = (inl (DuplicateKey "queueNumber" 1), Queue.saveAll morning []).
Proof.
  apply (new_day_save_is_rejected morning nextDay nextDayEntry).
  - discriminate.
  - repeat constructor.
  - reflexivity.
Defined.

(** ** Overlapping saves *)

(** C2, on two saves of the same day into an empty collection.  When the
    second save runs its hook before the first has inserted, both are
    given the number 1 and the second insert is rejected: the numbers
    given are not 1 and 2.  When the first save settles before the second
    starts, the numbers are 1 and 2. *)
Theorem overlapping_saves_get_the_same_number :
  let a := Queue.fresh 1000 "64f0000000000000000000a1"
                       "64f0000000000000000000bb" "cough" in
  let b := Queue.fresh 1001 "64f0000000000000000000a2"
                       "64f0000000000000000000bb" "fever" in
  let tasks := [Queue.Started 1000 a; Queue.Started 1001 b] in
  let overlapped := Queue.interleave [0; 1; 0; 1]%nat tasks [] in
  let serial := Queue.interleave [0; 0; 1; 1]%nat tasks [] in
  map Queue.issued (fst overlapped) = [Some 1; Some 1] /\
  nth_error (fst overlapped) 1
    = Some (Queue.Settled (inl (DuplicateKey "queueNumber" 1))) /\
  map Queue.queueNumber (snd overlapped) = [1] /\
  map Queue.issued (fst serial) = [Some 1; Some 2] /\
  map Queue.queueNumber (snd serial) = [1; 2].
Proof. cbv zeta. repeat split. Qed.

(** * Further properties of the code *)

(** ** The symptom analysis, in general *)

Lemma setAdd_NoDup (s : list string) (x : string) :
  NoDup s -> NoDup (setAdd s x).
Proof.
  intro H. unfold setAdd. destruct (arrIncludes s x) eqn:E; [exact H|].
  apply NoDup_app; [exact H | repeat constructor; intros [] |].
  intros y Hy [<- | []].
  apply arrIncludes_In in Hy. congruence.
Qed.

Lemma addAll_NoDup (tags s : list string) :
  NoDup s -> NoDup (fold_left setAdd tags s).
Proof.
  revert s. induction tags as [|t tags IH]; cbn [fold_left]; intros s H; auto.
  apply IH. now apply setAdd_NoDup.
Qed.

Lemma matchRules_NoDup table text acc :
  NoDup (snd acc) -> NoDup (snd (fold_left (matchSymptom text) table acc)).
Proof.
  revert acc. induction table as [|r table IH]; cbn [fold_left]; intros acc H; auto.
  apply IH. unfold matchSymptom. destruct (includes text (fst r)); [|exact H].
  cbn [snd]. now apply addAll_NoDup.
Qed.

Lemma addAll_origin (tags s : list string) (y : string) :
  In y (fold_left setAdd tags s) -> In y s \/ In y tags.
Proof.
  revert s. induction tags as [|t tags IH]; cbn [fold_left]; intros s H.
  - now left.
  - destruct (IH _ H) as [Hs | Ht]; [|right; now right].
    unfold setAdd in Hs. destruct (arrIncludes s t); [now left|].
    apply in_app_or in Hs. destruct Hs as [Hs | [<- | []]];
      [now left | right; now left].
Qed.

(** A tag of the set comes from a rule whose phrase occurs. *)
Lemma matchRules_matched_origin table text acc (y : string) :
  In y (snd (fold_left (matchSymptom text) table acc)) ->
  In y (snd acc) \/
  exists rule, In rule table /\ includes text (fst rule) = true /\ In y (snd rule).
Proof.
  revert acc. induction table as [|r table IH]; cbn [fold_left]; intros acc H.
  - now left.
  - destruct (IH _ H) as [Hacc | (rule & Hr & Hi & Hy)].
    + unfold matchSymptom in Hacc.
      destruct (includes text (fst r)) eqn:Ei; [|now left].
      cbn [snd] in Hacc. destruct (addAll_origin _ _ _ Hacc) as [Hs | Ht];
        [now left|].
      right. exists r. repeat split; [now left | assumption | assumption].
    + right. exists rule. repeat split; [now right | assumption | assumption].
Qed.

Lemma no_rule_occurs table text :
  filter (fun rule : string * list string => includes text (fst rule)) table = [] ->
  existsb (fun rule => includes text (fst rule)) table = false.
Proof.
  induction table as [|r table IH]; [reflexivity|]. cbn [filter existsb].
  destruct (includes text (fst r)); [discriminate | exact IH].
Qed.

Lemma table_rules_have_tags rule :
  In rule SYMPTOM_SPECIALIZATION_MAP -> exists tag, In tag (snd rule).
Proof.
  intro Hr.
  assert (F : forallb (fun rule : string * list string =>
                         negb (Nat.eqb (List.length (snd rule)) 0))
                      SYMPTOM_SPECIALIZATION_MAP = true)
    by (vm_compute; reflexivity).
  rewrite forallb_forall in F. specialize (F rule Hr).
  destruct (snd rule) as [|tag l]; [discriminate F | exists tag; now left].
Qed.

(** The shape of the specializations, for an arbitrary result of the
    matching loop. *)
Lemma specializations_shape text (r : list string * list string) (tag : string) :
  r = fold_left (matchSymptom text) SYMPTOM_SPECIALIZATION_MAP ([], []) ->
  (In tag (if Z.of_nat (List.length (snd r)) =? 0
           then setAdd (snd r) "internal-medicine" else snd r)
   <->
   (exists rule, In rule SYMPTOM_SPECIALIZATION_MAP /\
                 includes text (fst rule) = true /\ In tag (snd rule)) \/
   (fst r = [] /\ tag = "internal-medicine")).
Proof.
  intro Er.
  assert (Hphr : fst r = map fst (filter (fun rule => includes text (fst rule))
                                         SYMPTOM_SPECIALIZATION_MAP)).
  { rewrite Er, matchRules_phrases. reflexivity. }
  assert (Hadds : forall rule y, In rule SYMPTOM_SPECIALIZATION_MAP ->
                    includes text (fst rule) = true -> In y (snd rule) ->
                    In y (snd r)).
  { intros [p tags] y Hr Hi Hy. rewrite Er.
    exact (matchRules_adds _ _ _ _ _ _ Hr Hi Hy). }
  assert (Horigin : forall y, In y (snd r) ->
                      exists rule, In rule SYMPTOM_SPECIALIZATION_MAP /\
                        includes text (fst rule) = true /\ In y (snd rule)).
  { intros y Hy. rewrite Er in Hy. apply matchRules_matched_origin in Hy.
    destruct Hy as [[] | H]. exact H. }
  assert (Hnone : fst r = [] -> snd r = []).
  { intro E. rewrite Hphr in E. apply map_eq_nil in E.
    apply no_rule_occurs in E. rewrite Er.
    now rewrite (matchRules_none _ _ _ E). }
  clear Er. destruct (snd r) as [|t0 l] eqn:Es.
  - cbn [List.length Z.of_nat Z.eqb]. unfold setAdd. cbn [arrIncludes existsb app].
    split.
    + intros [<- | []]. right. split; [|reflexivity].
      rewrite Hphr. destruct (filter _ _) as [|rule l'] eqn:Ef; [reflexivity|].
      exfalso. assert (Hin : In rule (filter (fun rule => includes text (fst rule))
                                             SYMPTOM_SPECIALIZATION_MAP))
        by (rewrite Ef; now left).
      apply filter_In in Hin. destruct Hin as [Hr Hi].
      destruct (table_rules_have_tags rule Hr) as [y Hy].
      exact (Hadds rule y Hr Hi Hy).
    + intros [(rule & Hr & Hi & Hy) | [_ ->]]; [|now left].
      destruct (Hadds rule tag Hr Hi Hy).
  - replace (Z.of_nat (List.length (t0 :: l)) =? 0) with false
      by (symmetry; apply Z.eqb_neq; cbn [List.length]; lia).
    split.
    + intro H. left. now apply Horigin.
    + intros [(rule & Hr & Hi & Hy) | [E _]]; [exact (Hadds rule tag Hr Hi Hy)|].
      specialize (Hnone E). discriminate Hnone.
Qed.

(** X1 (specializations): the specializations of an analysis have no
    repetition and are not empty; a tag is among them exactly when it is
    a tag of a rule whose phrase occurs in the lower-cased text, or when
    no phrase was recorded and the tag is internal-medicine. *)
Theorem specializations_are_the_matched_tags (symptoms tag : string) :
  let a := analyzeSymptoms symptoms in
  NoDup (specializations a) /\
  specializations a <> [] /\
  (In tag (specializations a) <->
   (exists rule, In rule SYMPTOM_SPECIALIZATION_MAP /\
                 includes (toLowerCase symptoms) (fst rule) = true /\
                 In tag (snd rule)) \/
   (matchedSymptoms a = [] /\ tag = "internal-medicine")).
Proof.
  cbv zeta. rewrite analysis_unfold. cbv zeta.
  cbn [specializations matchedSymptoms]. unfold matchAll. split; [|split].
  - generalize (matchRules_NoDup SYMPTOM_SPECIALIZATION_MAP
                  (toLowerCase symptoms) ([], []) (NoDup_nil _)).
    generalize (fold_left (matchSymptom (toLowerCase symptoms))
                          SYMPTOM_SPECIALIZATION_MAP ([], [])).
    intros r Hr. destruct (Z.of_nat _ =? 0); [|exact Hr].
    now apply setAdd_NoDup.
  - generalize (fold_left (matchSymptom (toLowerCase symptoms))
                          SYMPTOM_SPECIALIZATION_MAP ([], [])).
    intros r. destruct (snd r) as [|t0 l]; cbn; discriminate.
  - now apply specializations_shape.
Qed.

Lemma scanPriority_decidingTier tiers text :
  scanPriority tiers text "low"
  = match decidingTier tiers text with
    | Some tier => fst tier
    | None => "low"
    end.
Proof.
  unfold decidingTier.
  induction tiers as [|[level keywords] tiers IH]; [reflexivity|].
  cbn [scanPriority find fst snd].
  destruct (existsb (includes text) keywords); cbn [andb].
  - destruct (String.eqb_spec level "low") as [-> | Hl]; cbn [negb].
    + exact IH.
    + reflexivity.
  - cbn [String.eqb negb]. exact IH.
Qed.

(** X2 (priority): the priority of an analysis is the level of the first
    tier, in the order emergency, high, medium, of which a keyword occurs
    in the lower-cased text, and low when there is none; the keywords of
    the low tier never change it.  It is one of the four levels. *)
Theorem priority_is_first_matching_tier (symptoms : string) :
  let text := toLowerCase symptoms in
  let occurs level :=
    existsb (fun tier => (fst tier =? level)%string
                         && existsb (includes text) (snd tier))
            SYMPTOM_PRIORITY in
  priority (analyzeSymptoms symptoms)
  = (if occurs "emergency" then "emergency"
     else if occurs "high" then "high"
     else if occurs "medium" then "medium"
     else "low") /\
  In (priority (analyzeSymptoms symptoms)) ["emergency"; "high"; "medium"; "low"].
Proof.
  cbv zeta. rewrite analysis_unfold. cbv zeta. cbn [priority].
  rewrite scanPriority_decidingTier. unfold decidingTier, SYMPTOM_PRIORITY.
  cbn [find existsb fst snd String.eqb Ascii.eqb Bool.eqb andb negb orb].
  rewrite !orb_false_r.
  generalize (toLowerCase symptoms). intro text.
  destruct (includes text "heart attack" || _) eqn:E; cbn [andb];
    [split; [reflexivity | cbn; tauto]|].
  destruct (includes text "fracture" || _) eqn:H; cbn [andb];
    [split; [reflexivity | cbn; tauto]|].
  destruct (includes text "fever" || _) eqn:M; cbn [andb];
    [split; [reflexivity | cbn; tauto]|].
  rewrite !andb_false_r. split; [reflexivity | cbn; tauto].
Qed.

Lemma lowerChar_idempotent (c : ascii) : lowerChar (lowerChar c) = lowerChar c.
Proof. destruct c as [[] [] [] [] [] [] [] []]; reflexivity. Qed.

Lemma toLowerCase_idempotent (s : string) :
  toLowerCase (toLowerCase s) = toLowerCase s.
Proof.
  induction s as [|c s IH]; [reflexivity|].
  cbn [toLowerCase]. now rewrite lowerChar_idempotent, IH.
Qed.

(** X3 (letter case): two texts with the same lower-cased form get the
    same analysis, and a text gets the analysis of its lower-cased form. *)
Theorem analysis_ignores_letter_case :
  (forall s1 s2 : string,
      toLowerCase s1 = toLowerCase s2 -> analyzeSymptoms s1 = analyzeSymptoms s2) /\
  (forall s : string, analyzeSymptoms (toLowerCase s) = analyzeSymptoms s).
Proof.
  assert (H : forall s1 s2, toLowerCase s1 = toLowerCase s2 ->
                            analyzeSymptoms s1 = analyzeSymptoms s2).
  { intros s1 s2 E. rewrite !analysis_unfold. cbv zeta. now rewrite E. }
  split; [exact H|]. intro s. apply H. apply toLowerCase_idempotent.
Qed.

Lemma analysis_ignores_letter_case_witness :
  analyzeSymptoms "Chest Pain and FEVER" = analyzeSymptoms "chest pain and fever".
Proof.
  apply (proj1 analysis_ignores_letter_case). reflexivity.
Defined.

(** ** [findBestDoctor], in general *)

(** Every field of the result, in terms of the doctor returned. *)
Lemma findBestDoctor_result m db now specializations priority best :
  findBestDoctor m db now specializations priority = inr best ->
  let doctor := Best.doctor best in
  let score := specializationScoreOf specializations doctor in
  rejects m UserFind = false /\
  In doctor (filter (available specializations) (users db)) /\
  Best.workload best = calculateDoctorWorkload m db now (User._id doctor) /\
  Best.estimatedWaitTime best = getAverageWaitTime m db (User._id doctor) /\
  Best.specializationMatch best = (0 <? score) /\
  Best.confidence best = (if 5 <? score then "high" else "medium").
Proof.
  unfold findBestDoctor, findDoctors. intro H.
  destruct (rejects m UserFind); [discriminate|].
  destruct (Z.of_nat _ =? 0); [discriminate|]. cbv zeta in H.
  destruct (sortScores _) as [|bestMatch rest] eqn:Es; [discriminate|].
  apply sortScores_head in Es.
  destruct Es as (before & u & after & Hl & -> & _ & _).
  injection H as <-. cbv zeta. cbn. repeat split.
  rewrite Hl. apply in_or_app. right. now left.
Qed.

Lemma departmentMatches_requested specializations u :
  ~ In "" specializations ->
  departmentMatches specializations u = true <->
  exists d, User.department u = Some d /\ In d specializations.
Proof.
  intro Hne. unfold departmentMatches. destruct (User.department u) as [d|].
  - split.
    + intro H. apply andb_true_iff in H. destruct H as [_ H].
      exists d. split; [reflexivity | now apply arrIncludes_In].
    + intros (d' & [= <-] & Hin). apply andb_true_iff. split.
      * destruct (String.eqb_spec d ""); [subst; contradiction | reflexivity].
      * now apply arrIncludes_In.
  - split; [discriminate | intros (d & [=] & _)].
Qed.

(** X4 (the doctor returned): the doctor that [findBestDoctor] returns is
    a user of the directory with role doctor who is active; the workload
    and the wait reported are those of that doctor; the result reports a
    specialization match exactly when the department or a secondary
    specialization of the doctor is requested, and the confidence high
    exactly when the department or at least two secondary specializations
    are; a doctor returned without a match is of the internal-medicine
    department.  The requested specializations hold no empty tag. *)
Theorem best_doctor_is_eligible (m : Mongo) (db : DB) (now : Z)
    (specializations : list string) (priority : string) (best : Best.t) :
  ~ In "" specializations ->
  findBestDoctor m db now specializations priority = inr best ->
  let doctor := Best.doctor best in
  let requested :=
    filter (arrIncludes specializations) (User.specializations doctor) in
  let departmentRequested :=
    exists d, User.department doctor = Some d /\ In d specializations in
  In doctor (users db) /\
  User.role doctor = "doctor" /\ User.isActive doctor = true /\
  Best.workload best = calculateDoctorWorkload m db now (User._id doctor) /\
  Best.estimatedWaitTime best = getAverageWaitTime m db (User._id doctor) /\
  (Best.specializationMatch best = true <->
   departmentRequested \/ requested <> []) /\
  (Best.confidence best = "high" <->
   departmentRequested \/ (2 <= List.length requested)%nat) /\
  (Best.specializationMatch best = false ->
   User.department doctor = Some "internal-medicine").
Proof.
  intros Hne H. cbv zeta.
  destruct (findBestDoctor_result _ _ _ _ _ _ H)
    as (_ & Hin & Hw & Ht & Hm & Hc).
  apply filter_In in Hin. destruct Hin as [Hin Hav].
  unfold available in Hav.
  apply andb_true_iff in Hav. destruct Hav as [Hav Hor].
  apply andb_true_iff in Hav. destruct Hav as [Hrole Hact].
  apply String.eqb_eq in Hrole.
  pose proof (departmentMatches_requested specializations (Best.doctor best) Hne)
    as Hdep.
  set (doctor := Best.doctor best) in *.
  set (requested := filter (arrIncludes specializations)
                           (User.specializations doctor)).
  assert (Hscore : specializationScoreOf specializations doctor
                   = (if departmentMatches specializations doctor then 10 else 0)
                     + Z.of_nat (List.length requested) * 5) by reflexivity.
  repeat split; auto.
  - rewrite Hm, Hscore. intro Hpos. apply Z.ltb_lt in Hpos.
    destruct (departmentMatches specializations doctor) eqn:Ed.
    + left. now apply Hdep.
    + right. intro En. rewrite En in Hpos. cbn in Hpos. lia.
  - rewrite Hm, Hscore. intros [Hd | Hr]; apply Z.ltb_lt.
    + apply Hdep in Hd. rewrite Hd. lia.
    + destruct requested; [contradiction|]. cbn [List.length].
      destruct (departmentMatches _ _); lia.
  - rewrite Hc, Hscore.
    destruct (Z.ltb_spec 5 ((if departmentMatches specializations doctor
                             then 10 else 0)
                            + Z.of_nat (List.length requested) * 5))
      as [Hlt | Hge]; [|discriminate]. intros _.
    destruct (departmentMatches specializations doctor) eqn:Ed.
    + left. now apply Hdep.
    + right. lia.
  - rewrite Hc, Hscore. intros [Hd | Hr].
    + apply Hdep in Hd. rewrite Hd.
      destruct (Z.ltb_spec 5 (10 + Z.of_nat (List.length requested) * 5));
        [reflexivity | lia].
    + destruct (Z.ltb_spec 5 ((if departmentMatches specializations doctor
                               then 10 else 0)
                              + Z.of_nat (List.length requested) * 5));
        [reflexivity | destruct (departmentMatches _ _); lia].
  - rewrite Hm, Hscore. intro Hz. apply Z.ltb_ge in Hz.
    assert (Ed : departmentMatches specializations doctor = false)
      by (destruct (departmentMatches _ _); [lia | reflexivity]).
    assert (Er : requested = [])
      by (destruct requested; [reflexivity | cbn [List.length] in Hz;
          rewrite Ed in Hz; lia]).
    destruct (User.department doctor) as [d|] eqn:Edep.
    + destruct (arrIncludes specializations d) eqn:Ein.
      * exfalso. apply arrIncludes_In in Ein.
        assert (Hd : departmentMatches specializations doctor = true)
          by (apply Hdep; exists d; split; first [assumption | reflexivity]).
        congruence.
      * cbn [orb] in Hor.
        destruct (existsb (arrIncludes specializations)
                          (User.specializations doctor)) eqn:Eex.
        -- exfalso. apply existsb_exists in Eex. destruct Eex as (t & Ht1 & Ht2).
           assert (Hin' : In t requested) by (apply filter_In; now split).
           rewrite Er in Hin'. exact Hin'.
        -- cbn [orb] in Hor. apply String.eqb_eq in Hor. now subst.
    + cbn [orb] in Hor.
      destruct (existsb (arrIncludes specializations)
                        (User.specializations doctor)) eqn:Eex.
      * exfalso. apply existsb_exists in Eex. destruct Eex as (t & Ht1 & Ht2).
        assert (Hin' : In t requested) by (apply filter_In; now split).
        rewrite Er in Hin'. exact Hin'.
      * discriminate Hor.
Qed.

Lemma best_doctor_is_eligible_witness :
  exists best,
    findBestDoctor byAssignedDoctor busyClinic 2000 ["cardiology"] "medium"
      = inr best /\
    User.department (Best.doctor best) = Some "internal-medicine".
Proof.
  pose (best := Best.mk doctorG 8 45 false "medium").
  exists best. split; [reflexivity|].
  refine (proj2 (proj2 (proj2 (proj2 (proj2 (proj2 (proj2
    (best_doctor_is_eligible byAssignedDoctor busyClinic 2000 ["cardiology"]
       "medium" best _ eq_refl))))))) eq_refl).
  intros [H | []]. discriminate H.
Defined.

Lemma findBestDoctor_succeeds m db now specializations priority doctor others :
  findDoctors m db specializations = inr (doctor :: others) ->
  exists best, findBestDoctor m db now specializations priority = inr best.
Proof.
  intro H. unfold findBestDoctor. rewrite H. cbn [List.length map].
  replace (Z.of_nat (S (List.length others)) =? 0) with false
    by (symmetry; apply Z.eqb_neq; lia).
  cbv zeta. unfold sortScores. cbn [fold_right].
  destruct (fold_right insertScore [] _) as [|b l]; cbn [insertScore].
  - eexists. reflexivity.
  - destruct (Qle_bool _ _); eexists; reflexivity.
Qed.

(** X5 (when no doctor is found): [findBestDoctor] fails in two ways
    only: with the error of the directory query when that query is
    rejected, and with the no-available-doctor error when the query is
    answered and no user of the directory is an active doctor who matches
    or is of the internal-medicine department.  So one active doctor of
    internal medicine is enough for it to succeed, whatever is requested
    and whatever the priority. *)
Theorem findBestDoctor_failures (m : Mongo) (db : DB) (now : Z)
    (specializations : list string) (priority : string) :
  (findBestDoctor m db now specializations priority
     = inl (QueryFailed "User.find") <-> rejects m UserFind = true) /\
  (findBestDoctor m db now specializations priority = inl NoAvailableDoctors
   <-> rejects m UserFind = false /\
       forall u, In u (users db) -> available specializations u = false) /\
  (forall e, findBestDoctor m db now specializations priority = inl e ->
             e = QueryFailed "User.find" \/ e = NoAvailableDoctors) /\
  (forall u, rejects m UserFind = false -> In u (users db) ->
             User.role u = "doctor" -> User.isActive u = true ->
             User.department u = Some "internal-medicine" ->
             exists best,
               findBestDoctor m db now specializations priority = inr best).
Proof.
  assert (Hcases :
    (rejects m UserFind = true /\
     findBestDoctor m db now specializations priority
       = inl (QueryFailed "User.find")) \/
    (rejects m UserFind = false /\
     filter (available specializations) (users db) = [] /\
     findBestDoctor m db now specializations priority = inl NoAvailableDoctors) \/
    (rejects m UserFind = false /\
     filter (available specializations) (users db) <> [] /\
     exists best, findBestDoctor m db now specializations priority = inr best)).
  { destruct (rejects m UserFind) eqn:Er.
    - left. split; [reflexivity|]. unfold findBestDoctor, findDoctors.
      now rewrite Er.
    - right. destruct (filter (available specializations) (users db))
        as [|u l] eqn:Ef.
      + left. repeat split. unfold findBestDoctor, findDoctors.
        now rewrite Er, Ef.
      + right. repeat split; [discriminate|].
        apply (findBestDoctor_succeeds m db now specializations priority u l).
        unfold findDoctors. now rewrite Er, Ef. }
  assert (Hempty : filter (available specializations) (users db) = [] <->
                   forall u, In u (users db) -> available specializations u = false).
  { split.
    - intros E u Hu. destruct (available specializations u) eqn:Ea; [|reflexivity].
      assert (Hin : In u (filter (available specializations) (users db)))
        by (apply filter_In; now split).
      rewrite E in Hin. destruct Hin.
    - intro H. destruct (filter _ _) as [|u l] eqn:Ef; [reflexivity|].
      assert (Hin : In u (filter (available specializations) (users db)))
        by (rewrite Ef; now left).
      apply filter_In in Hin. destruct Hin as [Hu Ha].
      rewrite (H u Hu) in Ha. discriminate. }
  repeat split.
  - intro H. destruct Hcases as [[Hr _] | [(_ & _ & E) | (_ & _ & best & E)]];
      [assumption | congruence | congruence].
  - intro H. destruct Hcases as [[_ E] | [(Hr & _) | (Hr & _)]];
      [assumption | congruence | congruence].
  - destruct Hcases as [[_ E] | [(Hr & _) | (_ & _ & best & E)]];
      [congruence | assumption | congruence].
  - apply Hempty.
    destruct Hcases as [[_ E] | [(_ & Hf & _) | (_ & _ & best & E)]];
      [congruence | assumption | congruence].
  - intros [Hr Hnone].
    destruct Hcases as [[Hr' _] | [(_ & _ & E) | (_ & Hf & _)]];
      [congruence | assumption | exfalso; now apply Hf, Hempty].
  - intros e H.
    destruct Hcases as [[_ E] | [(_ & _ & E) | (_ & _ & best & E)]];
      rewrite E in H; [left | right | discriminate]; congruence.
  - intros u Hr Hu Hrole Hact Hdep.
    destruct Hcases as [[Hr' _] | [(_ & Hf & _) | (_ & _ & Hex)]];
      [congruence | | assumption].
    exfalso. rewrite Hempty in Hf. specialize (Hf u Hu).
    unfold available in Hf. rewrite Hrole, Hact, Hdep in Hf.
    cbn [String.eqb Ascii.eqb Bool.eqb andb] in Hf.
    rewrite orb_true_r in Hf. discriminate.
Qed.

Lemma findBestDoctor_failures_witness :
  exists best,
    findBestDoctor byAssignedDoctor busyClinic 2000 ["dermatology"] "emergency"
    = inr best.
Proof.
  apply (proj2 (proj2 (proj2
           (findBestDoctor_failures byAssignedDoctor busyClinic 2000
              ["dermatology"] "emergency"))) doctorG);
    try reflexivity.
  now left.
Defined.

(** ** The orchestration, in general *)

(** X6 (no assignment is ever stored): the queue entry that
    [assignDoctorToPatient] builds has no [checkedInBy], which the schema
    requires, so its save is rejected by the validation; every call ends
    in an assignment failure and leaves the database as it was.  When a
    doctor was found, the cause is the validation error. *)
Theorem assignment_never_stores (m : Mongo) (db : DB) (now : Z)
    (patientId : ObjectId) (symptoms : string) :
  let a := analyzeSymptoms symptoms in
  snd (assignDoctorToPatient m db now patientId symptoms) = db /\
  (exists cause,
      fst (assignDoctorToPatient m db now patientId symptoms)
      = inl (AssignmentFailed cause)) /\
  (forall best,
      findBestDoctor m db now (specializations a) (priority a) = inr best ->
      fst (assignDoctorToPatient m db now patientId symptoms)
      = inl (AssignmentFailed
               (ValidationError
                  ("checkedInBy" ::
                   if (symptoms =? "")%string then ["symptoms"] else [])))).
Proof.
  cbv zeta. unfold assignDoctorToPatient. cbv zeta.
  destruct (findBestDoctor m db now _ _) as [e | best].
  - repeat split; [eexists; reflexivity | discriminate].
  - unfold Queue.save, Queue.missingPaths.
    cbn [Queue.checkedInBy Queue.symptoms app].
    split; [|split].
    + now destruct db.
    + eexists; reflexivity.
    + intros best' _. reflexivity.
Qed.

(** ** Load and score *)




(** X8 (the wait sentinel): an estimated wait of 999 is returned exactly
    when the wait query is rejected; an answered query gives a
    non-negative multiple of 15, which 999 is not. *)
Theorem wait_sentinel_is_unambiguous (m : Mongo) (db : DB) (doctorId : ObjectId) :
  (getAverageWaitTime m db doctorId = 999 <->
   rejects m (QueueFind doctorId) = true) /\
  (rejects m (QueueFind doctorId) = false ->
   0 <= getAverageWaitTime m db doctorId /\
   getAverageWaitTime m db doctorId mod 15 = 0).
Proof.
  unfold getAverageWaitTime, findWaiting.
  destruct (rejects m (QueueFind doctorId)).
  - split; [split; reflexivity | discriminate].
  - set (n := Z.of_nat (List.length _)).
    assert (Hn : 0 <= n) by (subst n; lia).
    assert (Hv : (if n =? 0 then 0 else n * 15) = n * 15)
      by (destruct (Z.eqb_spec n 0); lia).
    rewrite Hv. split.
    + split; [|discriminate]. intro H.
      assert (Hm : (n * 15) mod 15 = 0) by apply Z.mod_mul, ltac:(lia).
      rewrite H in Hm. discriminate Hm.
    + intros _. split; [lia | apply Z.mod_mul; lia].
Qed.

(** ** Sorting *)

Section SortBy.
Context {A : Type} (le : A -> A -> bool).
Hypothesis le_total : forall a b, le a b = true \/ le b a = true.
Hypothesis le_trans : forall a b c, le a b = true -> le b c = true -> le a c = true.

Lemma insertBy_perm (a : A) (l : list A) : Permutation (insertBy le a l) (a :: l).
Proof.
  induction l as [|b l IH]; cbn [insertBy]; [reflexivity|].
  destruct (le a b); [reflexivity|].
  rewrite IH. apply perm_swap.
Qed.

Lemma sortBy_perm (l : list A) : Permutation (sortBy le l) l.
Proof.
  induction l as [|a l IH]; [reflexivity|].
  unfold sortBy. cbn [fold_right]. fold (sortBy le l).
  rewrite insertBy_perm. now constructor.
Qed.

Lemma insertBy_sorted (a : A) (l : list A) :
  StronglySorted (fun x y => le x y = true) l ->
  StronglySorted (fun x y => le x y = true) (insertBy le a l).
Proof.
  induction 1 as [|b l Hs IH Hb]; cbn [insertBy].
  - repeat constructor.
  - destruct (le a b) eqn:E.
    + constructor; [now constructor|]. constructor; [exact E|].
      eapply Forall_impl; [|exact Hb]. cbv beta. intros x Hx.
      now apply (le_trans a b x).
    + assert (Hba : le b a = true) by (destruct (le_total a b); congruence).
      constructor; [exact IH|].
      eapply Permutation_Forall;
        [symmetry; apply insertBy_perm | now constructor].
Qed.

Lemma sortBy_sorted (l : list A) :
  StronglySorted (fun x y => le x y = true) (sortBy le l).
Proof.
  induction l as [|a l IH]; [constructor|].
  unfold sortBy. cbn [fold_right]. now apply insertBy_sorted.
Qed.

(** The first document of a sorted query precedes every document that
    the query selects. *)
Lemma sortBy_head (l : list A) (h : A) :
  hd_error (sortBy le l) = Some h ->
  In h l /\ forall x, In x l -> le h x = true.
Proof.
  intro H. pose proof (sortBy_sorted l) as Hs. pose proof (sortBy_perm l) as Hp.
  destruct (sortBy le l) as [|h' rest]; [discriminate|].
  injection H as ->. split.
  - apply (Permutation_in _ Hp). now left.
  - intros x Hx. apply (Permutation_in _ (Permutation_sym Hp)) in Hx.
    destruct Hx as [<- | Hx].
    + destruct (le_total h h); assumption.
    + inversion Hs as [|? ? _ Hall]; subst.
      rewrite Forall_forall in Hall. now apply Hall.
Qed.

Lemma sortBy_head_none (l : list A) :
  hd_error (sortBy le l) = None <-> l = [].
Proof.
  pose proof (sortBy_perm l) as Hp. split.
  - intro H. destruct (sortBy le l); [|discriminate].
    now apply Permutation_nil.
  - intros ->. reflexivity.
Qed.
End SortBy.

Lemma ascii_compare_refl (c : ascii) : Ascii.compare c c = Eq.
Proof. unfold Ascii.compare. apply N.compare_refl. Qed.

Lemma string_compare_refl (s : string) : String.compare s s = Eq.
Proof.
  induction s as [|c s IH]; [reflexivity|].
  cbn [String.compare]. now rewrite ascii_compare_refl.
Qed.

Lemma string_compare_lt_trans (a b c : string) :
  String.compare a b = Lt -> String.compare b c = Lt -> String.compare a c = Lt.
Proof.
  revert b c. induction a as [|x a IH]; intros [|y b] [|z c];
    cbn [String.compare]; try discriminate; try reflexivity.
  destruct (Ascii.compare x y) eqn:Exy; destruct (Ascii.compare y z) eqn:Eyz;
    try discriminate; intros H1 H2.
  - apply Ascii.compare_eq_iff in Exy. apply Ascii.compare_eq_iff in Eyz.
    subst. rewrite ascii_compare_refl. now apply (IH b c).
  - apply Ascii.compare_eq_iff in Exy. subst. now rewrite Eyz.
  - apply Ascii.compare_eq_iff in Eyz. subst. now rewrite Exy.
  - unfold Ascii.compare in *. rewrite N.compare_lt_iff in Exy, Eyz.
    assert (E : (N_of_ascii x ?= N_of_ascii z)%N = Lt)
      by (apply N.compare_lt_iff; lia).
    now rewrite E.
Qed.

Lemma string_compare_gt_lt (a b : string) :
  String.compare a b = Gt <-> String.compare b a = Lt.
Proof.
  rewrite (String.compare_antisym a b).
  destruct (String.compare b a); cbn [CompOpp]; split; congruence.
Qed.

Lemma precedes_total (a b : Entry.t) :
  Entry.precedes a b = true \/ Entry.precedes b a = true.
Proof.
  unfold Entry.precedes.
  rewrite (String.compare_antisym (Entry.priority a) (Entry.priority b)).
  destruct (String.compare (Entry.priority b) (Entry.priority a)); cbn [CompOpp];
    [| now left | now right].
  destruct (Z.leb_spec (Entry.checkedInAt a) (Entry.checkedInAt b));
    [now left | right; apply Z.leb_le; lia].
Qed.

Lemma precedes_trans (a b c : Entry.t) :
  Entry.precedes a b = true -> Entry.precedes b c = true ->
  Entry.precedes a c = true.
Proof.
  unfold Entry.precedes.
  destruct (String.compare (Entry.priority a) (Entry.priority b)) eqn:Eab;
    destruct (String.compare (Entry.priority b) (Entry.priority c)) eqn:Ebc;
    try discriminate; intros H1 H2.
  - apply String.compare_eq_iff in Eab. apply String.compare_eq_iff in Ebc.
    rewrite Eab, Ebc, string_compare_refl. apply Z.leb_le.
    apply Z.leb_le in H1. apply Z.leb_le in H2. lia.
  - apply String.compare_eq_iff in Eab. now rewrite Eab, Ebc.
  - apply String.compare_eq_iff in Ebc. now rewrite <- Ebc, Eab.
  - apply string_compare_gt_lt in Eab. apply string_compare_gt_lt in Ebc.
    pose proof (string_compare_lt_trans _ _ _ Ebc Eab) as E.
    apply string_compare_gt_lt in E. now rewrite E.
Qed.

(** An entry that precedes another is not of a smaller priority string;
    among the priorities of the schema, emergency is the smallest. *)
Lemma emergency_precedes_only_emergency (a b : Entry.t) :
  Entry.precedes a b = true -> Entry.priority a = "emergency" ->
  In (Entry.priority b) Entry.priorities -> Entry.priority b = "emergency".
Proof.
  unfold Entry.precedes, Entry.priorities. intros H Ea Hb. rewrite Ea in H.
  destruct Hb as [Hb | [Hb | [Hb | [Hb | []]]]]; rewrite <- Hb in H |- *;
    first [reflexivity | discriminate H].
Qed.

(** ** Stored entries *)

Lemma entry_save_outcome (rejected : bool) (now : Z) (this : Entry.t)
    (coll : list Entry.t) :
  Entry.save rejected now this coll =
    match Entry.invalidPaths this with
    | [] => if rejected then (inl (QueryFailed "updateOne"), coll)
            else (inr this, Entry.replace this coll)
    | paths => (inl (ValidationError paths), coll)
    end.
Proof.
  unfold Entry.save. cbn [Queue.preSave].
  replace (Entry.setDoc (Entry.doc this) this) with this by now destruct this.
  reflexivity.
Qed.

Lemma entry_save_cases (rejected : bool) (now : Z) (this : Entry.t)
    (coll : list Entry.t) :
  (exists e, Entry.save rejected now this coll = (inl e, coll)) \/
  (Entry.invalidPaths this = [] /\ rejected = false /\
   Entry.save rejected now this coll = (inr this, Entry.replace this coll)).
Proof.
  rewrite entry_save_outcome. destruct (Entry.invalidPaths this).
  - destruct rejected; [left; eexists; reflexivity | right; now repeat split].
  - left. eexists. reflexivity.
Qed.

Lemma findById_In (id : ObjectId) (coll : list Entry.t) (e : Entry.t) :
  Entry.findById id coll = Some e -> In e coll /\ Entry._id e = id.
Proof.
  unfold Entry.findById. intro H. apply find_some in H.
  destruct H as [Hin E]. apply String.eqb_eq in E. now split.
Qed.

Lemma same_id_same_entry (coll : list Entry.t) (a b : Entry.t) :
  NoDup (map Entry._id coll) -> In a coll -> In b coll ->
  Entry._id a = Entry._id b -> a = b.
Proof.
  induction coll as [|c coll IH]; intros Hnd Ha Hb E; [destruct Ha|].
  cbn [map] in Hnd. inversion Hnd as [|? ? Hnotin Hnd']; subst.
  destruct Ha as [-> | Ha]; destruct Hb as [-> | Hb]; auto.
  - exfalso. apply Hnotin. rewrite E. now apply in_map.
  - exfalso. apply Hnotin. rewrite <- E. now apply in_map.
Qed.

Lemma findById_of_member (coll : list Entry.t) (e : Entry.t) :
  NoDup (map Entry._id coll) -> In e coll ->
  Entry.findById (Entry._id e) coll = Some e.
Proof.
  intros Hnd He. unfold Entry.findById.
  destruct (find _ coll) as [x|] eqn:Ef.
  - apply find_some in Ef. destruct Ef as [Hx E]. apply String.eqb_eq in E.
    f_equal. now apply (same_id_same_entry coll).
  - exfalso. pose proof (find_none _ _ Ef e He) as Hn. cbv beta in Hn.
    rewrite String.eqb_refl in Hn. discriminate.
Qed.

(** Replacing a document by one with the same value under [f] keeps the
    values under [f]. *)
Lemma replace_keeps {B} (f : Entry.t -> B) (this orig : Entry.t)
    (coll : list Entry.t) :
  NoDup (map Entry._id coll) -> In orig coll ->
  Entry._id this = Entry._id orig -> f this = f orig ->
  map f (Entry.replace this coll) = map f coll.
Proof.
  intros Hnd Ho Eid Ef. unfold Entry.replace. rewrite map_map.
  apply map_ext_in. intros e He.
  destruct (String.eqb_spec (Entry._id e) (Entry._id this)) as [E | _];
    [|reflexivity].
  rewrite Ef. f_equal. symmetry. apply (same_id_same_entry coll); auto.
  congruence.
Qed.

Lemma replace_ids (this : Entry.t) (coll : list Entry.t) :
  map Entry._id (Entry.replace this coll) = map Entry._id coll.
Proof.
  unfold Entry.replace. rewrite map_map. apply map_ext. intro e.
  destruct (String.eqb_spec (Entry._id e) (Entry._id this)); congruence.
Qed.

(** A filter that rejects both the old and the new document does not see
    the replacement. *)
Lemma replace_filter (f : Entry.t -> bool) (this orig : Entry.t)
    (coll : list Entry.t) :
  NoDup (map Entry._id coll) -> In orig coll ->
  Entry._id this = Entry._id orig -> f this = false -> f orig = false ->
  filter f (Entry.replace this coll) = filter f coll.
Proof.
  intros Hnd Ho Eid Ft Fo.
  assert (H : forall e, In e coll ->
                (if (Entry._id e =? Entry._id this)%string then this else e) = e \/
                (f (if (Entry._id e =? Entry._id this)%string then this else e)
                 = false /\ f e = false)).
  { intros e He.
    destruct (String.eqb_spec (Entry._id e) (Entry._id this)) as [E | _];
      [|now left].
    right. split; [assumption|].
    replace e with orig; [assumption|].
    apply (same_id_same_entry coll); auto. congruence. }
  clear Hnd Ho. unfold Entry.replace.
  induction coll as [|e coll IH]; [reflexivity|].
  cbn [map filter].
  rewrite IH by (intros x Hx; apply H; now right).
  destruct (H e (or_introl eq_refl)) as [-> | [-> ->]]; reflexivity.
Qed.

Lemma sorted_head (f : Entry.t -> bool) (coll : list Entry.t) (h : Entry.t) :
  hd_error (Entry.sortQueue (filter f coll)) = Some h ->
  In h coll /\ f h = true /\
  forall x, In x coll -> f x = true -> Entry.precedes h x = true.
Proof.
  intro H. apply (sortBy_head _ precedes_total precedes_trans) in H.
  destruct H as [Hin Hall]. apply filter_In in Hin. destruct Hin as [Hin Hf].
  repeat split; auto. intros x Hx Fx. apply Hall. apply filter_In. now split.
Qed.

(** X9 (the current queue): [getCurrentQueue] returns the entries that
    are waiting or in progress, each once, ordered by descending priority
    string and then by ascending check-in time.  The strings descend as
    medium, low, high, emergency: after an entry of priority emergency
    only entries of priority emergency follow. *)
Theorem current_queue_lists_emergency_last (coll : list Entry.t) :
  let queue := Entry.getCurrentQueue coll in
  Permutation queue (filter Entry.active coll) /\
  StronglySorted (fun a b => Entry.precedes a b = true) queue /\
  (forall before e after,
      queue = (before ++ e :: after)%list ->
      Entry.priority e = "emergency" ->
      forall x, In x after -> In (Entry.priority x) Entry.priorities ->
                Entry.priority x = "emergency").
Proof.
  cbv zeta. unfold Entry.getCurrentQueue, Entry.sortQueue.
  pose proof (sortBy_sorted Entry.precedes precedes_total precedes_trans
                (filter Entry.active coll)) as Hs.
  split; [apply sortBy_perm | split; [exact Hs|]].
  intros before e after Eq Ee x Hx Hp. rewrite Eq in Hs.
  apply (emergency_precedes_only_emergency e x); auto.
  clear Eq. induction before as [|b before IH]; cbn [app] in Hs.
  - inversion Hs as [|? ? _ Hall]; subst.
    rewrite Forall_forall in Hall. now apply Hall.
  - inversion Hs; subst. now apply IH.
Qed.

(** ** The route that calls the next patient *)

Lemma setters_keep_stamp (now : Z) (s : string) (d : ObjectId) (text : string)
    (e : Entry.t) :
  stamp (Entry.setStatus s e) = stamp e /\
  stamp (Entry.setCalledAt now e) = stamp e /\
  stamp (Entry.setStartedAt now e) = stamp e /\
  stamp (Entry.setCompletedAt now e) = stamp e /\
  stamp (Entry.setNotes text e) = stamp e /\
  stamp (Entry.setAssignedDoctor d e) = stamp e.
Proof. repeat split. Qed.

Lemma stamp_id (a b : Entry.t) : stamp a = stamp b -> Entry._id a = Entry._id b.
Proof. unfold stamp. congruence. Qed.

Lemma stamps_ids (l1 l2 : list Entry.t) :
  map stamp l1 = map stamp l2 -> map Entry._id l1 = map Entry._id l2.
Proof.
  intro H.
  assert (E : forall l, map Entry._id l = map (fun s => fst (fst s)) (map stamp l))
    by (intro l; rewrite map_map; reflexivity).
  now rewrite (E l1), (E l2), H.
Qed.

(** A save of a document that has the stamp of a stored one keeps the
    stamps of the collection. *)
Lemma entry_save_keeps_stamps (rejected : bool) (now : Z) (this orig : Entry.t)
    (coll : list Entry.t) :
  NoDup (map Entry._id coll) -> In orig coll -> stamp this = stamp orig ->
  map stamp (snd (Entry.save rejected now this coll)) = map stamp coll.
Proof.
  intros Hnd Ho Es.
  destruct (entry_save_cases rejected now this coll) as [[e ->] | (_ & _ & ->)];
    [reflexivity|].
  cbn [snd]. apply (replace_keeps stamp this orig); auto. now apply stamp_id.
Qed.

(** What the first half of the handler leaves: the waiting entries, the
    stamps. *)
Lemma completeCurrent_keeps (rejected : nat -> bool) (now : Z)
    (doctorId : option ObjectId) (coll : list Entry.t) :
  NoDup (map Entry._id coll) ->
  let coll1 := snd (Entry.completeCurrent rejected now doctorId coll) in
  map stamp coll1 = map stamp coll /\
  filter (fun e => (Entry.status e =? "waiting")%string
                   && Entry.ofDoctor doctorId e) coll1
  = filter (fun e => (Entry.status e =? "waiting")%string
                     && Entry.ofDoctor doctorId e) coll.
Proof.
  intro Hnd. cbv zeta. unfold Entry.completeCurrent. cbv zeta.
  destruct (hd_error _) as [c|] eqn:Eh; [|now split].
  apply sorted_head in Eh. destruct Eh as (Hc & Fc & _).
  apply andb_true_iff in Fc. destruct Fc as [Sc _]. apply String.eqb_eq in Sc.
  set (c' := Entry.setCompletedAt now (Entry.setStatus "completed" c)).
  destruct (entry_save_cases (rejected 1%nat) now c' coll)
    as [[e ->] | (_ & _ & ->)]; [now split|].
  cbn [snd]. split.
  - apply (replace_keeps stamp c' c); auto.
  - apply (replace_filter _ c' c); auto.
    now rewrite Sc.
Qed.

(** X10 (who is called next): when [POST /call-next] answers 200, the
    entry it returns is a waiting entry of the requested doctor, now in
    progress and called at the time of the request, and no waiting entry
    of that doctor has a greater priority string, or the same priority
    and an earlier check-in.  As strings, emergency is the least of the
    priorities: an entry of priority emergency is called only when every
    waiting entry of the doctor has that priority. *)
Theorem call_next_takes_greatest_priority_string (rejected : nat -> bool)
    (now : Z) (doctorId : option ObjectId) (coll : list Entry.t) :
  NoDup (map Entry._id coll) ->
  Entry.code (fst (Entry.callNext rejected now doctorId coll)) = 200 ->
  exists next,
    In next coll /\ Entry.status next = "waiting" /\
    Entry.ofDoctor doctorId next = true /\
    Entry.data (fst (Entry.callNext rejected now doctorId coll))
      = Some (Entry.setCalledAt now (Entry.setStatus "in-progress" next)) /\
    (forall x, In x coll -> Entry.status x = "waiting" ->
               Entry.ofDoctor doctorId x = true ->
               Entry.precedes next x = true) /\
    (Entry.priority next = "emergency" ->
     forall x, In x coll -> Entry.status x = "waiting" ->
               Entry.ofDoctor doctorId x = true ->
               In (Entry.priority x) Entry.priorities ->
               Entry.priority x = "emergency").
Proof.
  intros Hnd. unfold Entry.callNext.
  destruct (rejected 0%nat); [discriminate|].
  pose proof (completeCurrent_keeps rejected now doctorId coll Hnd) as Hk.
  cbv zeta in Hk. destruct Hk as [_ Hf].
  destruct (Entry.completeCurrent rejected now doctorId coll) as [goesOn coll1].
  cbn [snd] in Hf.
  destruct goesOn; cbn [negb]; [|discriminate].
  destruct (rejected 2%nat); [discriminate|].
  rewrite Hf. destruct (hd_error _) as [next|] eqn:Eh; [|discriminate].
  apply sorted_head in Eh. destruct Eh as (Hin & Fn & Hall).
  apply andb_true_iff in Fn. destruct Fn as [Sn Dn]. apply String.eqb_eq in Sn.
  rewrite entry_save_outcome.
  destruct (Entry.invalidPaths _); [|discriminate].
  destruct (rejected 3%nat); [discriminate|]. cbn [fst Entry.code Entry.data].
  intros _. exists next.
  assert (Hprec : forall x, In x coll -> Entry.status x = "waiting" ->
                            Entry.ofDoctor doctorId x = true ->
                            Entry.precedes next x = true).
  { intros x Hx Sx Dx. apply Hall; [assumption|]. now rewrite Sx, Dx. }
  repeat split; auto.
  intros Ee x Hx Sx Dx Px.
  apply (emergency_precedes_only_emergency next x); auto.
Qed.

Lemma call_next_takes_greatest_priority_string_witness :
  exists next,
    In next waitingRoom /\ Entry.status next = "waiting" /\
    Entry.ofDoctor None next = true /\
    Entry.data (fst (Entry.callNext answering 5000 None waitingRoom))
      = Some (Entry.setCalledAt 5000 (Entry.setStatus "in-progress" next)) /\
    Entry.priority next = "medium".
Proof.
  destruct (call_next_takes_greatest_priority_string answering 5000 None
              waitingRoom) as (next & Hin & Hs & Hd & Hdata & _).
  - repeat constructor; cbn; intuition discriminate.
  - reflexivity.
  - exists next. repeat split; auto.
    vm_compute in Hdata. injection Hdata as E.
    destruct Hin as [<- | [<- | [<- | []]]]; try discriminate E. reflexivity.
Defined.

(** The waiting room answers with the medium priority entry, not with
    the emergency that was checked in first. *)
Example waiting_room_call :
  option_map Entry._id
    (Entry.data (fst (Entry.callNext answering 5000 None waitingRoom)))
  = Some "q2" /\
  map Entry._id (Entry.getCurrentQueue waitingRoom) = ["q2"; "q3"; "q1"].
Proof. split; reflexivity. Qed.

Lemma today_numbers_from_stamps (today : Z) (l : list Entry.t) :
  map Queue.queueNumber (Queue.sinceToday today (map Entry.doc l))
  = map (fun s => snd (fst s))
        (filter (fun s : ObjectId * Z * Z => today <=? snd s) (map stamp l)).
Proof.
  unfold Queue.sinceToday. induction l as [|e l IH]; [reflexivity|].
  cbn [map filter]. unfold stamp at 1. cbn [snd fst].
  unfold Entry.checkedInAt.
  destruct (today <=? Queue.checkedInAt (Entry.doc e)); cbn [map];
    rewrite IH; reflexivity.
Qed.

Lemma next_number_from_stamps (l1 l2 : list Entry.t) (t : Z) :
  map stamp l1 = map stamp l2 ->
  Queue.nextQueueNumber t (map Entry.doc l1)
  = Queue.nextQueueNumber t (map Entry.doc l2).
Proof.
  intro H. rewrite !nextQueueNumber_maximum, !today_numbers_from_stamps.
  now rewrite H.
Qed.

Lemma callNext_keeps_stamps (rejected : nat -> bool) (now : Z)
    (doctorId : option ObjectId) (coll : list Entry.t) :
  NoDup (map Entry._id coll) ->
  map stamp (snd (Entry.callNext rejected now doctorId coll)) = map stamp coll.
Proof.
  intro Hnd. unfold Entry.callNext.
  destruct (rejected 0%nat); [reflexivity|].
  pose proof (completeCurrent_keeps rejected now doctorId coll Hnd) as Hk.
  cbv zeta in Hk. destruct Hk as [Hs _].
  destruct (Entry.completeCurrent rejected now doctorId coll) as [goesOn coll1].
  cbn [snd] in Hs.
  destruct goesOn; cbn [negb]; [|exact Hs].
  destruct (rejected 2%nat); [exact Hs|].
  destruct (hd_error _) as [next|] eqn:Eh; [|exact Hs].
  apply sorted_head in Eh. destruct Eh as (Hin & _ & _).
  assert (Hnd1 : NoDup (map Entry._id coll1))
    by (rewrite (stamps_ids _ _ Hs); exact Hnd).
  pose proof (entry_save_keeps_stamps (rejected 3%nat) now
                (Entry.setCalledAt now (Entry.setStatus "in-progress" next))
                next coll1 Hnd1 Hin eq_refl) as Hsave.
  destruct (Entry.save _ _ _ _) as [[e | called] coll2]; cbn [snd] in *;
    congruence.
Qed.

Lemma updateStatus_keeps_stamps (rejected : nat -> bool) (now : Z) (valid : bool)
    (id : ObjectId) (status : string) (notes : option string)
    (coll : list Entry.t) :
  NoDup (map Entry._id coll) ->
  map stamp (snd (Entry.updateStatus rejected now valid id status notes coll))
  = map stamp coll.
Proof.
  intro Hnd. unfold Entry.updateStatus.
  destruct valid; cbn [negb]; [|reflexivity].
  destruct (rejected 0%nat); [reflexivity|].
  destruct (Entry.findById id coll) as [queueEntry|] eqn:Ef; [|reflexivity].
  apply findById_In in Ef. destruct Ef as [Hin _]. cbv zeta.
  match goal with
  | |- context [Entry.save ?r ?n ?this coll] =>
      pose proof (entry_save_keeps_stamps r n this queueEntry coll Hnd Hin)
        as Hsave;
      destruct (Entry.save r n this coll) as [[e | saved] coll1]
  end; cbn [snd] in *.
  - apply Hsave.
    destruct (Entry.truthy notes); destruct (status =? "in-progress")%string;
      destruct (status =? "completed")%string;
      destruct (status =? "cancelled")%string; reflexivity.
  - destruct (rejected 2%nat || rejected 3%nat); cbn [snd]; apply Hsave;
      destruct (Entry.truthy notes); destruct (status =? "in-progress")%string;
      destruct (status =? "completed")%string;
      destruct (status =? "cancelled")%string; reflexivity.
Qed.

Lemma assignDoctor_keeps_stamps (rejected : nat -> bool) (now : Z) (valid : bool)
    (id doctorId : ObjectId) (coll : list Entry.t) :
  NoDup (map Entry._id coll) ->
  map stamp (snd (Entry.assignDoctor rejected now valid id doctorId coll))
  = map stamp coll.
Proof.
  intro Hnd. unfold Entry.assignDoctor.
  destruct valid; cbn [negb]; [|reflexivity].
  destruct (rejected 0%nat); [reflexivity|].
  destruct (Entry.findById id coll) as [queueEntry|] eqn:Ef; [|reflexivity].
  apply findById_In in Ef. destruct Ef as [Hin _].
  pose proof (entry_save_keeps_stamps (rejected 1%nat) now
                (Entry.setAssignedDoctor doctorId queueEntry) queueEntry coll
                Hnd Hin eq_refl) as Hsave.
  destruct (Entry.save _ _ _ _) as [[e | saved] coll1]; cbn [snd] in *;
    [exact Hsave|].
  destruct (rejected 2%nat || rejected 3%nat); exact Hsave.
Qed.

(** X11 (the numbering is left alone): calling the next patient, updating
    a status and assigning a doctor change neither the [_id], nor the
    queue number, nor the check-in time of any stored entry, and add or
    remove none; so the number that the hook gives to the next new entry
    is the same before and after. *)
Theorem routes_keep_the_numbering (rejected : nat -> bool) (now : Z)
    (valid : bool) (id doctorId : ObjectId) (status : string)
    (notes doctorFilter : option string) (coll : list Entry.t) :
  NoDup (map Entry._id coll) ->
  forall after,
    after = snd (Entry.callNext rejected now doctorFilter coll) \/
    after = snd (Entry.updateStatus rejected now valid id status notes coll) \/
    after = snd (Entry.assignDoctor rejected now valid id doctorId coll) ->
    map stamp after = map stamp coll /\
    forall t, Queue.nextQueueNumber t (map Entry.doc after)
              = Queue.nextQueueNumber t (map Entry.doc coll).
Proof.
  intros Hnd after H.
  assert (Hs : map stamp after = map stamp coll).
  { destruct H as [-> | [-> | ->]].
    - now apply callNext_keeps_stamps.
    - now apply updateStatus_keeps_stamps.
    - now apply assignDoctor_keeps_stamps. }
  split; [exact Hs|]. intro t. now apply next_number_from_stamps.
Qed.

Lemma routes_keep_the_numbering_witness :
  map stamp (snd (Entry.callNext answering 5000 None waitingRoom))
  = map stamp waitingRoom.
Proof.
  refine (proj1 (routes_keep_the_numbering answering 5000 true "q1" "d1"
                   "completed" None None waitingRoom _ _ (or_introl eq_refl))).
  repeat constructor; cbn; intuition discriminate.
Defined.

Lemma replace_finds (this orig : Entry.t) (coll : list Entry.t) :
  In orig coll -> Entry._id this = Entry._id orig ->
  Entry.findById (Entry._id orig) (Entry.replace this coll) = Some this.
Proof.
  intros Ho Eid. unfold Entry.findById, Entry.replace.
  induction coll as [|e coll IH]; [destruct Ho|].
  cbn [map find].
  destruct (String.eqb_spec (Entry._id e) (Entry._id this)) as [E | N].
  - rewrite Eid, String.eqb_refl. reflexivity.
  - destruct Ho as [-> | Ho]; [congruence|].
    destruct (String.eqb_spec (Entry._id e) (Entry._id orig)) as [E' | _];
      [congruence | now apply IH].
Qed.

(** X12 (the current patient is completed first): let the driver answer
    the first three [await]s of [POST /call-next], and let there be a
    current patient whose document passes the validation.  Then the
    current patient is stored as completed whatever the answer: when
    nobody is waiting the answer is 404, and when the save of the next
    patient is rejected the answer is not 200, and in both cases the
    collection differs from the one before only in the completed entry. *)
Theorem call_next_completes_before_it_calls (rejected : nat -> bool) (now : Z)
    (doctorId : option ObjectId) (coll : list Entry.t) (current : Entry.t) :
  let completed :=
    Entry.setCompletedAt now (Entry.setStatus "completed" current) in
  let waiting :=
    filter (fun e => (Entry.status e =? "waiting")%string
                     && Entry.ofDoctor doctorId e) coll in
  NoDup (map Entry._id coll) ->
  rejected 0%nat = false -> rejected 1%nat = false -> rejected 2%nat = false ->
  hd_error (Entry.sortQueue
    (filter (fun e => (Entry.status e =? "in-progress")%string
                      && Entry.ofDoctor doctorId e) coll)) = Some current ->
  Entry.invalidPaths completed = [] ->
  (waiting = [] ->
   Entry.callNext rejected now doctorId coll
   = (Entry.mkResponse 404 "No patients waiting in queue" None,
      Entry.replace completed coll)) /\
  (rejected 3%nat = true ->
   Entry.code (fst (Entry.callNext rejected now doctorId coll)) <> 200 /\
   snd (Entry.callNext rejected now doctorId coll) = Entry.replace completed coll) /\
  Entry.findById (Entry._id current) (Entry.replace completed coll)
    = Some completed /\
  Entry.status completed = "completed" /\
  Entry.completedAt completed = Some now.
Proof.
  intros completed waiting Hnd R0 R1 R2 Hcur Hvalid.
  assert (Hin : In current coll) by (apply sorted_head in Hcur; tauto).
  pose proof (completeCurrent_keeps rejected now doctorId coll Hnd) as Hk.
  cbv zeta in Hk. destruct Hk as [_ Hf].
  assert (Hcc : Entry.completeCurrent rejected now doctorId coll
                = (true, Entry.replace completed coll)).
  { unfold Entry.completeCurrent. cbv zeta. rewrite Hcur.
    fold completed. rewrite entry_save_outcome, Hvalid, R1. reflexivity. }
  rewrite Hcc in Hf. cbn [snd] in Hf.
  assert (Hcall :
    Entry.callNext rejected now doctorId coll =
    match hd_error (Entry.sortQueue waiting) with
    | None => (Entry.mkResponse 404 "No patients waiting in queue" None,
               Entry.replace completed coll)
    | Some nextPatient =>
        match Entry.save (rejected 3%nat) now
                (Entry.setCalledAt now (Entry.setStatus "in-progress" nextPatient))
                (Entry.replace completed coll) with
        | (inl _, coll2) => (Entry.serverError, coll2)
        | (inr called, coll2) =>
            (Entry.mkResponse 200 "Next patient called" (Some called), coll2)
        end
    end).
  { unfold Entry.callNext. rewrite R0, Hcc. cbn [negb]. rewrite R2, Hf.
    reflexivity. }
  rewrite Hcall. clear Hcall Hcc Hf.
  split; [|split; [|split; [|split]]].
  - intro Hw. now rewrite Hw.
  - intro R3. destruct (hd_error (Entry.sortQueue waiting)) as [next|];
      [|split; [discriminate | reflexivity]].
    rewrite entry_save_outcome, R3.
    destruct (Entry.invalidPaths
                (Entry.setCalledAt now (Entry.setStatus "in-progress" next)));
      cbn [fst snd Entry.code Entry.serverError];
      split; first [discriminate | reflexivity].
  - now apply replace_finds.
  - reflexivity.
  - reflexivity.
Qed.

Lemma call_next_completes_before_it_calls_witness :
  Entry.callNext answering 5000 None lastPatient
  = (Entry.mkResponse 404 "No patients waiting in queue" None,
     Entry.replace
       (Entry.setCompletedAt 5000
          (Entry.setStatus "completed" (roomEntry "q1" 1 1000 "in-progress" "medium")))
       lastPatient).
Proof.
  refine (proj1 (call_next_completes_before_it_calls answering 5000 None
                   lastPatient (roomEntry "q1" 1 1000 "in-progress" "medium")
                   _ eq_refl eq_refl eq_refl eq_refl eq_refl) eq_refl).
  repeat constructor; cbn; intuition discriminate.
Defined.

(** ** The route that removes an entry *)

(** X13 (what can be removed): [DELETE /:id] answers 200 only for an
    entry that is waiting or cancelled, and then exactly the entries with
    that [_id] are gone; with any other answer the collection is
    unchanged.  An entry that is in progress, completed or a no-show is
    never removed. *)
Theorem remove_spares_the_entries_in_progress (rejected : nat -> bool)
    (id : ObjectId) (coll : list Entry.t) :
  let answer := fst (Entry.remove rejected id coll) in
  let after := snd (Entry.remove rejected id coll) in
  (Entry.code answer = 200 ->
   exists e, Entry.findById id coll = Some e /\
             In (Entry.status e) ["waiting"; "cancelled"] /\
             after = filter (fun x => negb (Entry._id x =? id)%string) coll) /\
  (Entry.code answer <> 200 -> after = coll) /\
  (NoDup (map Entry._id coll) ->
   forall e, In e coll -> ~ In (Entry.status e) ["waiting"; "cancelled"] ->
             In e after).
Proof.
  cbv zeta. unfold Entry.remove.
  destruct (rejected 0%nat);
    [repeat split; [discriminate | intros _ e He _; exact He]|].
  destruct (Entry.findById id coll) as [q|] eqn:Ef;
    [|repeat split; [discriminate | intros _ e He _; exact He]].
  destruct (arrIncludes ["waiting"; "cancelled"] (Entry.status q)) eqn:Es;
    cbn [negb]; [|repeat split; [discriminate | intros _ e He _; exact He]].
  destruct (rejected 1%nat);
    [repeat split; [discriminate | intros _ e He _; exact He]|].
  cbn [fst snd Entry.code]. split; [|split].
  - intros _. exists q. repeat split. now apply arrIncludes_In.
  - intro H. now contradiction H.
  - intros Hnd e He Hs. apply filter_In. split; [exact He|].
    destruct (String.eqb_spec (Entry._id e) id) as [E | _]; [|reflexivity].
    exfalso. apply Hs. apply findById_In in Ef. destruct Ef as [Hq Eq].
    replace e with q; [now apply arrIncludes_In|].
    apply (same_id_same_entry coll); auto. congruence.
Qed.

Lemma remove_spares_the_entries_in_progress_witness :
  In (roomEntry "q1" 1 1000 "in-progress" "medium")
     (snd (Entry.remove answering "q1" lastPatient)).
Proof.
  refine (proj2 (proj2 (remove_spares_the_entries_in_progress answering "q1"
                          lastPatient)) _ _ (or_introl eq_refl) _).
  - repeat constructor; cbn; intuition discriminate.
  - cbn. intuition discriminate.
Defined.

(** ** Removal and the numbering *)

Lemma saveAll_app (reqs : list (Z * Queue.t)) (r : Z * Queue.t)
    (coll : list Queue.t) :
  Queue.saveAll (reqs ++ [r]) coll
  = snd (Queue.save false (fst r) (snd r) (Queue.saveAll reqs coll)).
Proof.
  revert coll. induction reqs as [|[t d] reqs IH]; intro coll.
  - now destruct r.
  - cbn [app Queue.saveAll]. apply IH.
Qed.

(** The entry stored last was numbered against the entries before it. *)
Lemma last_stored_number (reqs : list (Z * Queue.t)) (rest : list Queue.t)
    (q : Queue.t) :
  Forall (fun r => Queue.checkedInAt (snd r) = fst r) reqs ->
  Queue.saveAll reqs [] = (rest ++ [q])%list ->
  Queue.queueNumber q = Queue.nextQueueNumber (Queue.checkedInAt q) rest.
Proof.
  induction reqs as [|[t d] reqs IH] using rev_ind; intros Hb Hs.
  - destruct rest; discriminate Hs.
  - apply Forall_app in Hb. destruct Hb as [Hb Hlast].
    inversion Hlast as [|? ? Ht _]; subst. cbn [fst snd] in Ht.
    rewrite saveAll_app in Hs. cbn [fst snd] in Hs.
    destruct (save_cases t d (Queue.saveAll reqs [])) as [E | E];
      rewrite E in Hs.
    + now apply IH.
    + apply app_inj_tail in Hs. destruct Hs as [<- <-].
      cbn [Queue.setQueueNumber Queue.queueNumber Queue.checkedInAt].
      now rewrite Ht.
Qed.

Lemma nextQueueNumber_same_day (t1 t2 : Z) (coll : list Queue.t) :
  startOfDay t1 = startOfDay t2 ->
  Queue.nextQueueNumber t1 coll = Queue.nextQueueNumber t2 coll.
Proof. intro H. unfold Queue.nextQueueNumber. now rewrite H. Qed.

Lemma taken_In (n : Z) (coll : list Queue.t) :
  Queue.taken n coll = true <-> In n (map Queue.queueNumber coll).
Proof.
  unfold Queue.taken. rewrite existsb_exists, in_map_iff. split.
  - intros (q & Hq & E). apply Z.eqb_eq in E. now exists q.
  - intros (q & E & Hq). exists q. split; [assumption | now apply Z.eqb_eq].
Qed.

(** The unique index keeps the stored numbers distinct. *)
Lemma saveAll_distinct_numbers (reqs : list (Z * Queue.t)) (coll : list Queue.t) :
  NoDup (map Queue.queueNumber coll) ->
  NoDup (map Queue.queueNumber (Queue.saveAll reqs coll)).
Proof.
  revert coll. induction reqs as [|[t d] reqs IH]; intros coll H; [exact H|].
  cbn [Queue.saveAll]. apply IH. rewrite save_outcome. cbv zeta.
  destruct (Queue.missingPaths d); [|exact H].
  destruct (Queue.taken _ coll) eqn:Et; [exact H|]. cbn [snd].
  rewrite map_app. cbn [map Queue.setQueueNumber Queue.queueNumber].
  apply NoDup_app; [exact H | repeat constructor; intros [] |].
  intros n Hn [<- | []]. apply taken_In in Hn. congruence.
Qed.

Lemma filter_out_last (rest : list Entry.t) (e : Entry.t) :
  NoDup (map Entry._id (rest ++ [e])) ->
  filter (fun x => negb (Entry._id x =? Entry._id e)%string) (rest ++ [e]) = rest.
Proof.
  intro Hnd. rewrite filter_app. cbn [filter]. rewrite String.eqb_refl.
  cbn [negb]. rewrite app_nil_r.
  rewrite map_app in Hnd. cbn [map] in Hnd.
  apply NoDup_remove_2 in Hnd. rewrite app_nil_r in Hnd.
  induction rest as [|x rest IH]; [reflexivity|]. cbn [filter].
  destruct (String.eqb_spec (Entry._id x) (Entry._id e)) as [E | _]; cbn [negb].
  - exfalso. apply Hnd. cbn [map]. left. exact E.
  - f_equal. apply IH. intro H. apply Hnd. cbn [map]. now right.
Qed.

(** X14 (a removed number is given again): let the stored entries come
    from saves made one after another, each built at the clock reading of
    its save, and let the entry stored last be waiting or cancelled.
    Removing it by [DELETE /:id] succeeds, and a new entry saved later
    the same day is then stored under the number of the removed entry:
    two patients have been given that number. *)
Theorem removed_number_is_given_again (reqs : list (Z * Queue.t))
    (rejected : nat -> bool) (now : Z) (rest : list Entry.t) (e : Entry.t)
    (doc : Queue.t) :
  Forall (fun r => Queue.checkedInAt (snd r) = fst r) reqs ->
  map Entry.doc (rest ++ [e]) = Queue.saveAll reqs [] ->
  NoDup (map Entry._id (rest ++ [e])) ->
  In (Entry.status e) ["waiting"; "cancelled"] ->
  rejected 0%nat = false -> rejected 1%nat = false ->
  startOfDay (Entry.checkedInAt e) = startOfDay now ->
  Queue.missingPaths doc = [] ->
  let after := snd (Entry.remove rejected (Entry._id e) (rest ++ [e])) in
  Entry.code (fst (Entry.remove rejected (Entry._id e) (rest ++ [e]))) = 200 /\
  after = rest /\
  Queue.nextQueueNumber now (map Entry.doc after) = Entry.queueNumber e /\
  exists stored,
    Queue.save false now doc (map Entry.doc after)
      = (inr stored, (map Entry.doc after ++ [stored])%list) /\
    Queue.queueNumber stored = Entry.queueNumber e.
Proof.
  intros Hb Hdocs Hnd Hs R0 R1 Hday Hvalid. cbv zeta.
  assert (Hfind : Entry.findById (Entry._id e) (rest ++ [e]) = Some e).
  { apply findById_of_member; [assumption|]. apply in_or_app. right. now left. }
  assert (Hrem : Entry.remove rejected (Entry._id e) (rest ++ [e])
                 = (Entry.mkResponse 200 "Queue entry removed successfully" None,
                    rest)).
  { unfold Entry.remove. rewrite R0, Hfind.
    apply arrIncludes_In in Hs. rewrite Hs. cbn [negb]. rewrite R1.
    now rewrite filter_out_last. }
  rewrite Hrem. cbn [fst snd Entry.code].
  rewrite map_app in Hdocs. cbn [map] in Hdocs. symmetry in Hdocs.
  assert (Hnum : Queue.nextQueueNumber now (map Entry.doc rest)
                 = Entry.queueNumber e).
  { rewrite <- (nextQueueNumber_same_day _ _ _ Hday).
    symmetry. exact (last_stored_number reqs _ _ Hb Hdocs). }
  repeat split; auto.
  exists (Queue.setQueueNumber (Entry.queueNumber e) doc).
  split; [|reflexivity].
  rewrite save_outcome. cbv zeta. rewrite Hvalid, Hnum.
  assert (Hfree : Queue.taken (Entry.queueNumber e) (map Entry.doc rest) = false).
  { destruct (Queue.taken _ _) eqn:Et; [|reflexivity]. exfalso.
    apply taken_In in Et.
    pose proof (saveAll_distinct_numbers reqs [] (NoDup_nil _)) as Hd.
    rewrite Hdocs, map_app in Hd. cbn [map] in Hd.
    apply NoDup_remove_2 in Hd. rewrite app_nil_r in Hd. now apply Hd. }
  rewrite Hfree. reflexivity.
Qed.

Lemma removed_number_is_given_again_witness :
  exists stored,
    Queue.save false 4000 lateEntry
      (map Entry.doc (snd (Entry.remove answering "q3" morningEntries)))
    = (inr stored,
       (map Entry.doc (snd (Entry.remove answering "q3" morningEntries))
        ++ [stored])%list) /\
    Queue.queueNumber stored = 3.
Proof.
  refine (proj2 (proj2 (proj2
    (removed_number_is_given_again morning answering 4000
       (firstn 2 morningEntries) (nth 2 morningEntries (storedAs "" lateEntry))
       lateEntry _ eq_refl _ _ eq_refl eq_refl eq_refl eq_refl)))).
  - repeat constructor.
  - repeat constructor; cbn; intuition discriminate.
  - now left.
Defined.

(** ** The methods of the schema *)

Lemma replace_same_id (this x : Entry.t) (coll : list Entry.t) :
  In x (Entry.replace this coll) -> Entry._id x = Entry._id this -> x = this.
Proof.
  unfold Entry.replace. intros Hx E. apply in_map_iff in Hx.
  destruct Hx as (e & He & _).
  destruct (String.eqb_spec (Entry._id e) (Entry._id this)); congruence.
Qed.

Lemma current_queue_members (coll : list Entry.t) (x : Entry.t) :
  In x (Entry.getCurrentQueue coll) <-> In x coll /\ Entry.active x = true.
Proof.
  unfold Entry.getCurrentQueue, Entry.sortQueue. rewrite <- filter_In.
  pose proof (sortBy_perm Entry.precedes (filter Entry.active coll)) as Hp.
  split; intro H.
  - now apply (Permutation_in _ Hp).
  - now apply (Permutation_in _ (Permutation_sym Hp)).
Qed.

(** X15 (the methods): for a document of the collection,
    [markAsCompleted] and [cancel], when they succeed, store it as
    completed, or as cancelled with the reason given or 'Cancelled by
    user' as its notes, after which the current queue has no entry with
    its [_id]; [markAsCalled] stores it as in progress, called at the
    time of the call, and it is in the current queue.  A reason of more
    than 500 characters makes [cancel] fail on the path [notes] and
    nothing is stored. *)
Theorem methods_and_the_current_queue (now : Z) (this : Entry.t)
    (coll : list Entry.t) (reason : option string) :
  In this coll ->
  (forall saved after,
      Entry.markAsCompleted false now this coll = (inr saved, after) ->
      Entry.status saved = "completed" /\ Entry.completedAt saved = Some now /\
      Entry.findById (Entry._id this) after = Some saved /\
      forall x, In x (Entry.getCurrentQueue after) ->
                Entry._id x <> Entry._id this) /\
  (forall saved after,
      Entry.cancel false now reason this coll = (inr saved, after) ->
      Entry.status saved = "cancelled" /\
      Entry.notes saved = Some (Entry.orElse reason "Cancelled by user") /\
      Entry.findById (Entry._id this) after = Some saved /\
      forall x, In x (Entry.getCurrentQueue after) ->
                Entry._id x <> Entry._id this) /\
  (forall saved after,
      Entry.markAsCalled false now this coll = (inr saved, after) ->
      Entry.status saved = "in-progress" /\ Entry.calledAt saved = Some now /\
      Entry.findById (Entry._id this) after = Some saved /\
      In saved (Entry.getCurrentQueue after)) /\
  (forall text, reason = Some text -> (500 < String.length text)%nat ->
      exists paths,
        Entry.cancel false now reason this coll
          = (inl (ValidationError paths), coll) /\
        In "notes" paths).
Proof.
  intro Hin.
  assert (Hsave : forall this' saved after,
             Entry._id this' = Entry._id this ->
             Entry.save false now this' coll = (inr saved, after) ->
             saved = this' /\ after = Entry.replace this' coll /\
             Entry.findById (Entry._id this) after = Some this').
  { intros this' saved after Eid H. rewrite entry_save_outcome in H.
    destruct (Entry.invalidPaths this'); [|discriminate].
    injection H as <- <-. repeat split. now apply replace_finds. }
  split; [|split; [|split]].
  - intros saved after H. unfold Entry.markAsCompleted in H.
    apply Hsave in H; [|reflexivity]. destruct H as (-> & -> & Hf).
    repeat split; auto. intros x Hx E.
    apply current_queue_members in Hx. destruct Hx as [Hx Ha].
    apply replace_same_id in Hx; [|exact E]. subst x. discriminate Ha.
  - intros saved after H. unfold Entry.cancel in H.
    apply Hsave in H; [|reflexivity]. destruct H as (-> & -> & Hf).
    repeat split; auto. intros x Hx E.
    apply current_queue_members in Hx. destruct Hx as [Hx Ha].
    apply replace_same_id in Hx; [|exact E]. subst x. discriminate Ha.
  - intros saved after H. unfold Entry.markAsCalled in H.
    apply Hsave in H; [|reflexivity]. destruct H as (-> & -> & Hf).
    repeat split; auto. apply current_queue_members. split; [|reflexivity].
    apply findById_In in Hf. tauto.
  - intros text -> Hlen. unfold Entry.cancel.
    rewrite entry_save_outcome.
    set (this' := Entry.setNotes _ _).
    assert (Hnotes : In "notes" (Entry.invalidPaths this')).
    { unfold Entry.invalidPaths. subst this'.
      cbn [Entry.notes Entry.setNotes Entry.orElse].
      assert (Et : (text =? "")%string = false).
      { destruct text; [cbn in Hlen; lia | reflexivity]. }
      rewrite Et.
      replace (500 <? String.length text)%nat with true
        by (symmetry; now apply Nat.ltb_lt).
      repeat (apply in_or_app; right). now left. }
    destruct (Entry.invalidPaths this') as [|p ps]; [destruct Hnotes|].
    exists (p :: ps). split; [reflexivity | exact Hnotes].
Qed.

Lemma methods_and_the_current_queue_witness :
  Entry.status (roomEntry "q1" 1 1000 "completed" "emergency") = "completed" /\
  forall x,
    In x (Entry.getCurrentQueue
            (Entry.replace
               (Entry.setCompletedAt 5000
                  (Entry.setStatus "completed"
                     (roomEntry "q1" 1 1000 "waiting" "emergency")))
               waitingRoom)) ->
    Entry._id x <> "q1".
Proof.
  split; [reflexivity|].
  refine (proj2 (proj2 (proj2 (proj1
    (methods_and_the_current_queue 5000
       (roomEntry "q1" 1 1000 "waiting" "emergency") waitingRoom None
       (or_introl eq_refl)) _ _ eq_refl)))).
Defined.

(** ** The check-in route *)

Lemma assignDoctorToPatient_fails (m : Mongo) (db : DB) (now : Z)
    (patientId : ObjectId) (symptoms : string) :
  exists cause,
    fst (assignDoctorToPatient m db now patientId symptoms)
    = inl (AssignmentFailed cause).
Proof.
  unfold assignDoctorToPatient. cbv zeta.
  destruct (findBestDoctor m db now _ _) as [e | best];
    [eexists; reflexivity|].
  unfold Queue.save, Queue.missingPaths.
  cbn [Queue.checkedInBy Queue.symptoms app]. eexists. reflexivity.
Qed.

(** Without a rejected search, a request for a patient who is found
    either stops at the entry of the patient in the queue or tries to
    store a new entry built from the request. *)
Lemma checkIn_unfold findOneAndUpdate (m : Mongo) (rejected : nat -> bool)
    (now : Z) (staff newId : ObjectId) (b : CheckIn.body) (p : Patient.t)
    (users : list User.t) (appointments : list Appointment.t)
    (coll : list Entry.t) :
  rejected 0%nat = false -> rejected 1%nat = false ->
  CheckIn.checkIn findOneAndUpdate m rejected now true staff newId b (Some p)
                  users appointments coll
  = match find (fun e => (Entry.patientId e =? CheckIn.patientId b)%string
                         && Entry.active e) coll with
    | Some existingQueue =>
        (Entry.mkResponse 400 "Patient is already in queue" (Some existingQueue),
         coll)
    | None =>
        match CheckIn.create (rejected 4%nat) now
                (Entry.mk newId
                   (Queue.mk (CheckIn.patientId b) now (Some staff) now "waiting"
                             (Entry.orElse (CheckIn.priority b) "medium")
                             (Patient.assignedDoctor p)
                             (Patient.currentSymptoms p))
                   None None None (CheckIn.notes b)) coll with
        | (inl _, coll2) =>
            (Entry.mkResponse 500 "Server error during check-in" None, coll2)
        | (inr saved, coll2) =>
            if rejected 5%nat || rejected 6%nat || rejected 7%nat
            then (Entry.mkResponse 500 "Server error during check-in" None, coll2)
            else (Entry.mkResponse 201 "Patient checked in successfully"
                                   (Some saved), coll2)
        end
    end.
Proof.
  intros R0 R1. unfold CheckIn.checkIn. cbv zeta. cbn [negb]. rewrite R0, R1.
  destruct (find _ coll); [reflexivity|].
  destruct (assignDoctorToPatient_fails m
              (mkDB users (map Entry.doc coll) appointments) now
              (Patient._id p) (Patient.currentSymptoms p)) as [cause ->].
  reflexivity.
Qed.

Lemma create_cases (rejected : bool) (now : Z) (this : Entry.t)
    (coll : list Entry.t) :
  (exists e, CheckIn.create rejected now this coll = (inl e, coll)) \/
  (let stored :=
     Entry.setDoc
       (Queue.setQueueNumber (Queue.nextQueueNumber now (map Entry.doc coll))
                             (Entry.doc this)) this in
   CheckIn.create rejected now this coll = (inr stored, (coll ++ [stored])%list) /\
   Entry.invalidPaths this = [] /\ rejected = false /\
   Queue.taken (Queue.nextQueueNumber now (map Entry.doc coll))
               (map Entry.doc coll) = false).
Proof.
  unfold CheckIn.create. destruct (Entry.invalidPaths this);
    [|left; eexists; reflexivity].
  unfold Queue.save, Queue.preSave, Queue.insert, Queue.nextQueueNumber.
  destruct (Queue.missingPaths (Entry.doc this)); [|left; eexists; reflexivity].
  destruct rejected; [left; eexists; reflexivity|]. cbv zeta.
  cbn [Queue.setQueueNumber Queue.queueNumber].
  destruct (Queue.taken _ _); [left; eexists; reflexivity|].
  right. repeat split.
Qed.

Lemma find_append {A} (f : A -> bool) (l1 l2 : list A) :
  find f (l1 ++ l2)
  = match find f l1 with Some x => Some x | None => find f l2 end.
Proof.
  induction l1 as [|a l1 IH]; [reflexivity|]. cbn [app find].
  now destruct (f a).
Qed.

(** X16 (one entry per patient): for a valid request whose patient is
    found, [POST /check-in] answers 400 with the entry of the patient
    when the patient has an entry that is waiting or in progress, and
    changes nothing; otherwise it tries to store a new waiting entry
    built from the request alone (the priority of the request, or
    medium; the doctor already assigned to the patient), because the
    attempt to assign a doctor by symptoms always fails.  After an
    answer 201 a further check-in of the same patient is refused with
    400 and changes nothing. *)
Theorem check_in_once findOneAndUpdate (m : Mongo) (rejected : nat -> bool)
    (now : Z) (staff newId : ObjectId) (b : CheckIn.body) (p : Patient.t)
    (users : list User.t) (appointments : list Appointment.t)
    (coll : list Entry.t) :
  rejected 0%nat = false -> rejected 1%nat = false ->
  let answer :=
    CheckIn.checkIn findOneAndUpdate m rejected now true staff newId b (Some p)
                    users appointments coll in
  let inQueue e :=
    (Entry.patientId e =? CheckIn.patientId b)%string && Entry.active e in
  (forall existing, find inQueue coll = Some existing ->
     answer = (Entry.mkResponse 400 "Patient is already in queue" (Some existing),
               coll)) /\
  (Entry.code (fst answer) = 201 ->
   find inQueue coll = None /\
   exists saved,
     snd answer = (coll ++ [saved])%list /\
     Entry.data (fst answer) = Some saved /\
     Entry._id saved = newId /\
     Entry.patientId saved = CheckIn.patientId b /\
     Entry.status saved = "waiting" /\
     Entry.priority saved = Entry.orElse (CheckIn.priority b) "medium" /\
     Entry.assignedDoctor saved = Patient.assignedDoctor p /\
     Entry.queueNumber saved
       = Queue.nextQueueNumber now (map Entry.doc coll)) /\
  (Entry.code (fst answer) = 201 ->
   forall m' rejected' now' staff' newId' b' p' users' appointments',
     rejected' 0%nat = false -> rejected' 1%nat = false ->
     CheckIn.patientId b' = CheckIn.patientId b ->
     let again :=
       CheckIn.checkIn findOneAndUpdate m' rejected' now' true staff' newId' b'
                       (Some p') users' appointments' (snd answer) in
     Entry.code (fst again) = 400 /\ snd again = snd answer).
Proof.
  intros R0 R1. cbv zeta.
  rewrite (checkIn_unfold findOneAndUpdate m rejected now staff newId b p
             users appointments coll R0 R1).
  set (inQueue := fun e => (Entry.patientId e =? CheckIn.patientId b)%string
                           && Entry.active e).
  set (queueEntry := Entry.mk newId _ None None None (CheckIn.notes b)).
  assert (Hstored :
    find inQueue coll = None ->
    forall saved coll2,
      CheckIn.create (rejected 4%nat) now queueEntry coll = (inr saved, coll2) ->
      coll2 = (coll ++ [saved])%list /\ Entry._id saved = newId /\
      Entry.patientId saved = CheckIn.patientId b /\
      Entry.status saved = "waiting" /\
      Entry.priority saved = Entry.orElse (CheckIn.priority b) "medium" /\
      Entry.assignedDoctor saved = Patient.assignedDoctor p /\
      Entry.queueNumber saved = Queue.nextQueueNumber now (map Entry.doc coll)).
  { intros _ saved coll2 Hc.
    destruct (create_cases (rejected 4%nat) now queueEntry coll)
      as [[e He] | (He & _)]; rewrite He in Hc; [discriminate|].
    injection Hc as <- <-. repeat split. }
  split; [|split].
  - intros existing ->. reflexivity.
  - destruct (find inQueue coll) as [ex|] eqn:Ef; [discriminate|].
    destruct (CheckIn.create _ _ _ _) as [[e | saved] coll2] eqn:Ec;
      [discriminate|].
    destruct (rejected 5%nat || rejected 6%nat || rejected 7%nat);
      [discriminate|].
    intros _. split; [reflexivity|]. exists saved.
    destruct (Hstored eq_refl saved coll2 eq_refl) as (-> & H).
    cbn [fst snd Entry.data]. tauto.
  - destruct (find inQueue coll) as [ex|] eqn:Ef; [discriminate|].
    destruct (CheckIn.create _ _ _ _) as [[e | saved] coll2] eqn:Ec;
      [discriminate|].
    destruct (rejected 5%nat || rejected 6%nat || rejected 7%nat);
      [discriminate|].
    intros _ m' rejected' now' staff' newId' b' p' users' appointments' R0' R1' Eb.
    destruct (Hstored eq_refl saved coll2 eq_refl) as (-> & _ & Hp & Hs & _).
    cbn [snd].
    rewrite (checkIn_unfold findOneAndUpdate m' rejected' now' staff' newId' b'
               p' users' appointments' _ R0' R1').
    rewrite Eb. fold inQueue.
    assert (Hfound : exists e, find inQueue (coll ++ [saved]) = Some e).
    { rewrite find_append, Ef. cbn [find]. unfold inQueue at 1.
      rewrite Hp, String.eqb_refl. unfold Entry.active. rewrite Hs.
      cbn. eexists. reflexivity. }
    destruct Hfound as [e ->]. split; reflexivity.
Qed.

Lemma check_in_once_witness :
  let answer :=
    CheckIn.checkIn findsNothing byAssignedDoctor answering 5000 true
      "64f0000000000000000000bb" "q4" walkInRequest (Some walkIn)
      [doctorG] [] waitingRoom in
  Entry.code (fst answer) = 201 /\
  Entry.code (fst (CheckIn.checkIn findsNothing byAssignedDoctor answering 6000
                     true "64f0000000000000000000bb" "q5" walkInRequest
                     (Some walkIn) [doctorG] [] (snd answer))) = 400.
Proof.
  cbv zeta. split; [reflexivity|].
  refine (proj1 (proj2 (proj2
    (check_in_once findsNothing byAssignedDoctor answering 5000
       "64f0000000000000000000bb" "q4" walkInRequest walkIn [doctorG] []
       waitingRoom eq_refl eq_refl)) eq_refl
    byAssignedDoctor answering 6000 "64f0000000000000000000bb" "q5"
    walkInRequest walkIn [doctorG] [] eq_refl eq_refl eq_refl)).
Defined.

(** X17 (check-in on a later day): let the stored entries come from
    saves made one after another into an empty collection, let there be
    at least one, and let all of them have been checked in before the day
    of the request.  Then a valid check-in of a patient who is found and
    has no entry waiting or in progress is answered 500, and nothing is
    stored: the hook gives the new entry the number 1, which is taken. *)
Theorem check_in_fails_on_a_later_day findOneAndUpdate (m : Mongo)
    (rejected : nat -> bool) (now : Z) (staff newId : ObjectId)
    (b : CheckIn.body) (p : Patient.t) (users : list User.t)
    (appointments : list Appointment.t) (reqs : list (Z * Queue.t))
    (coll : list Entry.t) :
  map Entry.doc coll = Queue.saveAll reqs [] ->
  coll <> [] ->
  Forall (fun e => Entry.checkedInAt e < startOfDay now) coll ->
  find (fun e => (Entry.patientId e =? CheckIn.patientId b)%string
                 && Entry.active e) coll = None ->
  CheckIn.checkIn findOneAndUpdate m rejected now true staff newId b (Some p)
                  users appointments coll
  = (Entry.mkResponse 500 "Server error during check-in" None, coll).
Proof.
  intros Hdocs Hne Hold Hnot.
  destruct (rejected 0%nat) eqn:R0;
    [unfold CheckIn.checkIn; cbv zeta; cbn [negb]; now rewrite R0|].
  destruct (rejected 1%nat) eqn:R1;
    [unfold CheckIn.checkIn; cbv zeta; cbn [negb]; now rewrite R0, R1|].
  rewrite (checkIn_unfold findOneAndUpdate m rejected now staff newId b p
             users appointments coll R0 R1), Hnot.
  match goal with
  | |- context [CheckIn.create ?r ?n ?this coll] =>
      destruct (create_cases r n this coll) as [[e ->] | (_ & _ & _ & Hfree)]
  end; [reflexivity|]. exfalso.
  assert (Hnext : Queue.nextQueueNumber now (map Entry.doc coll) = 1).
  { apply nextQueueNumber_new_day. rewrite Forall_map. exact Hold. }
  rewrite Hnext in Hfree.
  destruct (saveAll_keeps_one reqs [] (or_introl eq_refl)) as [E | E];
    rewrite <- Hdocs in E.
  - apply map_eq_nil in E. contradiction.
  - congruence.
Qed.

Lemma check_in_fails_on_a_later_day_witness :
  CheckIn.checkIn findsNothing byAssignedDoctor answering nextDay true
    "64f0000000000000000000bb" "q4" walkInRequest (Some walkIn) [doctorG] []
    morningEntries
  = (Entry.mkResponse 500 "Server error during check-in" None, morningEntries).
Proof.
  apply (check_in_fails_on_a_later_day findsNothing byAssignedDoctor answering
           nextDay "64f0000000000000000000bb" "q4" walkInRequest walkIn
           [doctorG] [] morning morningEntries).
  - reflexivity.
  - discriminate.
  - repeat constructor.
  - reflexivity.
Defined.

(** ** Appointments *)

Lemma conflictsWith_spec (this a : Slot.t) :
  Slot.conflictsWith this a = true <->
  Slot.doctorId a = Slot.doctorId this /\
  Slot.appointmentDate a = Slot.appointmentDate this /\
  Slot.live a = true /\ Slot._id a <> Slot._id this.
Proof.
  unfold Slot.conflictsWith, Slot.live.
  rewrite !andb_true_iff, String.eqb_eq, Z.eqb_eq, negb_true_iff, String.eqb_neq.
  tauto.
Qed.

Lemma conflictsWith_key (this this' a a' : Slot.t) :
  slotKey this = slotKey this' -> slotKey a = slotKey a' ->
  Slot.conflictsWith this a = Slot.conflictsWith this' a'.
Proof.
  unfold slotKey, Slot.conflictsWith. intros [= E1 E2 E3 E4] [= F1 F2 F3 F4].
  now rewrite E1, E2, E3, F1, F2, F3, F4.
Qed.

Lemma find_conflict_key (this this' : Slot.t) (coll coll' : list Slot.t) :
  slotKey this = slotKey this' -> map slotKey coll = map slotKey coll' ->
  (find (Slot.conflictsWith this) coll = None <->
   find (Slot.conflictsWith this') coll' = None).
Proof.
  intro Ek. revert coll'. induction coll as [|a coll IH]; intros [|a' coll'] Em;
    try discriminate Em; [tauto|].
  cbn [map] in Em.
  assert (Ea : slotKey a = slotKey a') by congruence.
  assert (Et : map slotKey coll = map slotKey coll') by congruence.
  cbn [find]. rewrite (conflictsWith_key this this' a a' Ek Ea).
  destruct (Slot.conflictsWith this' a'); [split; discriminate | now apply IH].
Qed.

(** X18 (what the hook of the appointments compares): a new appointment
    is refused as a time slot conflict exactly when a stored appointment
    of the same doctor, with another [_id] and status scheduled or
    confirmed, has the same appointment date.  The start and end times
    are not read: the outcome is the same for documents that agree on
    [_id], doctor, date and status.  A save in which only the status was
    assigned runs no check. *)
Theorem appointment_hook_compares_dates_only (rejected isNew : bool)
    (modified : list string) (this : Slot.t) (coll : list Slot.t) :
  (Slot.preSave false true modified this coll = Some Slot.TimeSlotConflict <->
   exists a, In a coll /\ Slot.doctorId a = Slot.doctorId this /\
             Slot.appointmentDate a = Slot.appointmentDate this /\
             Slot.live a = true /\ Slot._id a <> Slot._id this) /\
  (forall this' coll',
      slotKey this = slotKey this' -> map slotKey coll = map slotKey coll' ->
      Slot.preSave rejected isNew modified this coll
      = Slot.preSave rejected isNew modified this' coll') /\
  Slot.preSave rejected false ["status"] this coll = None.
Proof.
  split; [|split].
  - unfold Slot.preSave. cbn [orb]. split.
    + destruct (find _ coll) as [a|] eqn:Ef; [|discriminate]. intros _.
      apply find_some in Ef. destruct Ef as [Hin Hc].
      apply conflictsWith_spec in Hc. exists a. tauto.
    + intros (a & Hin & Hc).
      destruct (find _ coll) as [x|] eqn:Ef; [reflexivity|]. exfalso.
      pose proof (find_none _ _ Ef a Hin) as Hn. cbv beta in Hn.
      assert (Ht : Slot.conflictsWith this a = true)
        by (apply conflictsWith_spec; tauto).
      congruence.
  - intros this' coll' Ek Em. unfold Slot.preSave.
    destruct (isNew || _ || _ || _); [|reflexivity].
    destruct rejected; [reflexivity|].
    pose proof (find_conflict_key this this' coll coll' Ek Em) as H.
    destruct (find (Slot.conflictsWith this) coll);
      destruct (find (Slot.conflictsWith this') coll'); try reflexivity.
    + destruct H as [_ H]. discriminate (H eq_refl).
    + destruct H as [H _]. discriminate (H eq_refl).
  - reflexivity.
Qed.

Lemma create_keeps_single_booking (this : Slot.t) (coll : list Slot.t) :
  Slot.singleBooking coll -> NoDup (map Slot._id coll) ->
  Slot.singleBooking (snd (Slot.create true false this coll)) /\
  NoDup (map Slot._id (snd (Slot.create true false this coll))).
Proof.
  intros Hsb Hnd. unfold Slot.create, Slot.preSave. cbn [negb orb].
  destruct (find (Slot.conflictsWith this) coll) as [c|] eqn:Ef; [now split|].
  destruct (existsb _ coll) eqn:Ex; [now split|]. cbn [snd].
  assert (Hfresh : forall a, In a coll -> Slot._id a <> Slot._id this).
  { intros a Ha E.
    assert (Ht : existsb (fun a => (Slot._id a =? Slot._id this)%string) coll
                 = true).
    { apply existsb_exists. exists a. split; [assumption|].
      now apply String.eqb_eq. }
    congruence. }
  assert (Hfree : forall a, In a coll -> Slot.live a = true ->
                    Slot.doctorId a = Slot.doctorId this ->
                    Slot.appointmentDate a = Slot.appointmentDate this -> False).
  { intros a Ha Hl Hd Ht.
    pose proof (find_none _ _ Ef a Ha) as Hn. cbv beta in Hn.
    assert (Hc : Slot.conflictsWith this a = true).
    { apply conflictsWith_spec. repeat split; auto. }
    congruence. }
  split.
  - intros a b Ha Hb La Lb Ed Et.
    apply in_app_or in Ha. apply in_app_or in Hb.
    destruct Ha as [Ha | [<- | []]]; destruct Hb as [Hb | [<- | []]].
    + now apply Hsb.
    + exfalso. now apply (Hfree a).
    + exfalso. apply (Hfree b); auto.
    + reflexivity.
  - rewrite map_app. cbn [map]. apply NoDup_app; [exact Hnd | |].
    + repeat constructor. intros [].
    + intros id Hid [<- | []]. apply in_map_iff in Hid.
      destruct Hid as (a & Ea & Ha). now apply (Hfresh a).
Qed.

(** X19 (no double booking by creation): in a collection that was filled
    by saving new appointments one after another, no doctor has two
    appointments with status scheduled or confirmed and the same
    appointment date, and no [_id] is stored twice. *)
Theorem creating_appointments_books_once (news : list Slot.t) :
  Slot.singleBooking (Slot.createAll news []) /\
  NoDup (map Slot._id (Slot.createAll news [])).
Proof.
  assert (H : forall coll, Slot.singleBooking coll -> NoDup (map Slot._id coll) ->
                Slot.singleBooking (Slot.createAll news coll) /\
                NoDup (map Slot._id (Slot.createAll news coll))).
  { induction news as [|this news IH]; intros coll Hs Hn; [now split|].
    cbn [Slot.createAll].
    destruct (create_keeps_single_booking this coll Hs Hn) as [Hs' Hn'].
    now apply IH. }
  apply H; [intros a b [] | constructor].
Qed.

(** X20 (confirming is not checked): let a stored appointment share the
    doctor and the appointment date of another stored appointment that is
    scheduled or confirmed.  Its method [confirm] succeeds, and the
    collection then holds two such appointments of the doctor on that
    date. *)
Theorem confirming_double_books (a b : Slot.t) (coll : list Slot.t) :
  NoDup (map Slot._id coll) -> In a coll -> In b coll ->
  Slot._id a <> Slot._id b ->
  Slot.doctorId a = Slot.doctorId b ->
  Slot.appointmentDate a = Slot.appointmentDate b ->
  Slot.live b = true ->
  let after := snd (Slot.confirm true false a coll) in
  fst (Slot.confirm true false a coll) = None /\
  In (Slot.setStatus "confirmed" a) after /\ In b after /\
  ~ Slot.singleBooking after.
Proof.
  intros Hnd Ha Hb Hid Hd Ht Hl. cbv zeta.
  unfold Slot.confirm. cbv zeta. cbn [negb Slot.preSave arrIncludes existsb
    String.eqb Ascii.eqb Bool.eqb orb andb fst snd].
  set (a' := Slot.setStatus "confirmed" a).
  assert (Ha' : In a' (map (fun x => if (Slot._id x =? Slot._id a')%string
                                     then a' else x) coll)).
  { apply in_map_iff. exists a. split; [|exact Ha].
    subst a'. cbn [Slot.setStatus Slot._id]. now rewrite String.eqb_refl. }
  assert (Hb' : In b (map (fun x => if (Slot._id x =? Slot._id a')%string
                                    then a' else x) coll)).
  { apply in_map_iff. exists b. split; [|exact Hb].
    subst a'. cbn [Slot.setStatus Slot._id].
    destruct (String.eqb_spec (Slot._id b) (Slot._id a)); [congruence|reflexivity]. }
  repeat split; auto.
  intro Hsb. specialize (Hsb a' b Ha' Hb' eq_refl Hl Hd Ht).
  apply Hid. rewrite <- Hsb. reflexivity.
Qed.

Lemma confirming_double_books_witness :
  ~ Slot.singleBooking (snd (Slot.confirm true false givenUp [givenUp; takenOver])).
Proof.
  refine (proj2 (proj2 (proj2
    (confirming_double_books givenUp takenOver [givenUp; takenOver]
       _ (or_introl eq_refl) (or_intror (or_introl eq_refl)) _
       eq_refl eq_refl eq_refl)))).
  - repeat constructor; cbn; intuition discriminate.
  - discriminate.
Defined.
